(** * JEXI Quantum-AI password generator: the candidate pipeline of [main.py]

    A shallow embedding of the classes [SemanticAnalyzer], [AIPasswordOptimizer]
    and [QuantumChef] of [src/main.py], and the properties of the classifier,
    the scorer, the memorability filter, the advisor and [bake_password].

    Conventions of the embedding.
    - A Python [str] is a [string]; a character is the code point
      [N_of_ascii c], so the strings covered are those over U+0000..U+00FF.
      The character predicates are the ones of the Unicode database on that
      range, as CPython's [str] methods use them.
    - Python [float] results are exact rationals ([Q]): the literals 0.2, 0.3
      and 1.0 are 1/5, 3/10 and 1, and [/] is exact division.  Binary64
      rounding is not modelled.
    - An exception is a value of [exn]; a computation yields a [result].
    - [random.SystemRandom], [str.title], [str.upper] and the scikit-learn
      objects are not code of the repository: they are the fields of a
      [Platform], and the methods that call them are generic over it. *)

From Stdlib Require Import List String Ascii Bool Arith NArith ZArith QArith Lia.
From Stdlib Require Import Qminmax Lqa.
Import ListNotations.

Open Scope string_scope.
Open Scope list_scope.

(* ------------------------------------------------------------------ *)
(** ** Characters *)

Module PyChar.

Definition code (c : ascii) : N := N_of_ascii c.

Definition between (lo hi : N) (c : ascii) : bool :=
  ((lo <=? code c) && (code c <=? hi))%N.

Definition at_code (n : N) (c : ascii) : bool := (code c =? n)%N.

(** Uppercase letters: A-Z, and the Latin-1 capitals U+00C0..U+00DE
    without the multiplication sign U+00D7. *)
Definition isupper (c : ascii) : bool :=
  between 65 90 c || between 192 214 c || between 216 222 c.

(** Letters (every general category of letters): A-Z, a-z, the ordinal indicators
    U+00AA and U+00BA, the micro sign U+00B5, and U+00C0..U+00FF without
    the signs U+00D7 and U+00F7. *)
Definition isalpha (c : ascii) : bool :=
  between 65 90 c || between 97 122 c
  || at_code 170 c || at_code 181 c || at_code 186 c
  || between 192 214 c || between 216 246 c || between 248 255 c.

(** Decimal digits (category Nd): 0-9. *)
Definition isdecimal (c : ascii) : bool := between 48 57 c.

(** Digits: the decimal digits and the superscripts U+00B2, U+00B3, U+00B9. *)
Definition isdigit (c : ascii) : bool :=
  isdecimal c || at_code 178 c || at_code 179 c || at_code 185 c.

(** Numeric characters: the digits and the vulgar fractions U+00BC..U+00BE. *)
Definition isnumeric (c : ascii) : bool :=
  isdigit c || between 188 190 c.

(** CPython: a character is alphanumeric when one of [isalpha],
    [isdecimal], [isdigit], [isnumeric] holds. *)
Definition isalnum (c : ascii) : bool :=
  isalpha c || isdecimal c || isdigit c || isnumeric c.

(** Lowercase mapping: every uppercase letter of the range has its
    lowercase form 32 code points higher. *)
Definition lower (c : ascii) : ascii :=
  if isupper c then ascii_of_N (code c + 32) else c.

End PyChar.

(* ------------------------------------------------------------------ *)
(** ** Strings *)

Module PyStr.

Definition chars (s : string) : list ascii := list_ascii_of_string s.

Definition len (s : string) : nat := String.length s.

(** The shape shared by [str.isalpha], [str.isdigit] and [str.isalnum]:
    at least one character, and every character passes the test. *)
Definition all_chars (p : ascii -> bool) (s : string) : bool :=
  match s with
  | EmptyString => false
  | String _ _ => forallb p (chars s)
  end.

Definition isalpha : string -> bool := all_chars PyChar.isalpha.
Definition isdigit : string -> bool := all_chars PyChar.isdigit.
Definition isalnum : string -> bool := all_chars PyChar.isalnum.

Fixpoint lower (s : string) : string :=
  match s with
  | EmptyString => EmptyString
  | String c s' => String (PyChar.lower c) (lower s')
  end.

(** [p in s] for strings: [p] occurs in [s] as a contiguous substring. *)
Fixpoint contains (p s : string) : bool :=
  String.prefix p s ||
  match s with
  | EmptyString => false
  | String _ s' => contains p s'
  end.

(** [sep.join(parts)]. *)
Definition join (sep : string) (parts : list string) : string :=
  String.concat sep parts.

(** [s[:k]] and [s[k:]] for [0 <= k]. *)
Definition take (k : nat) (s : string) : string := String.substring 0 k s.
Definition drop (k : nat) (s : string) : string :=
  String.substring k (len s - k) s.

End PyStr.

(* ------------------------------------------------------------------ *)
(** ** Exceptions and results *)

Inductive exn : Type :=
| ZeroDivisionError
| IndexError
| ValueError
| AttributeError
| LibraryError (tag : nat).

(** What a call without loops yields: a value or an exception. *)
Inductive result (A : Type) : Type :=
| Ok (a : A)
| Raise (e : exn).

Arguments Ok {A} a.
Arguments Raise {A} e.

Definition rbind {A B : Type} (r : result A) (k : A -> result B) : result B :=
  match r with
  | Ok a => k a
  | Raise e => Raise e
  end.

(** [try: body / except: handler] with a bare [except]. *)
Definition try_except {A : Type} (body : result A) (handler : exn -> result A)
  : result A :=
  match body with
  | Ok a => Ok a
  | Raise e => handler e
  end.

(** [seq[i]] on a list, for an integer index: negative indices count from
    the end, anything out of range raises [IndexError]. *)
Definition py_index {A : Type} (l : list A) (i : Z) : result A :=
  let n := Z.of_nat (List.length l) in
  let j := (if i <? 0 then i + n else i)%Z in
  if ((j <? 0) || (n <=? j))%Z then Raise IndexError
  else match nth_error l (Z.to_nat j) with
       | Some x => Ok x
       | None => Raise IndexError
       end.

Fixpoint rmap {A B : Type} (f : A -> result B) (l : list A) : result (list B) :=
  match l with
  | [] => Ok []
  | x :: l' => rbind (f x) (fun y => rbind (rmap f l') (fun ys => Ok (y :: ys)))
  end.

Declare Scope result_scope.
Delimit Scope result_scope with result.
Notation "'let!' x ':=' m 'in' k" :=
  (rbind m (fun x => k))
  (at level 10, x name, m at level 100, k at level 200) : result_scope.
Open Scope result_scope.

(** [a / b] on integers: true division, [ZeroDivisionError] for a zero
    divisor. *)
Definition truediv (a b : Z) : result Q :=
  if (b =? 0)%Z then Raise ZeroDivisionError
  else Ok (inject_Z a / inject_Z b)%Q.

(** [min(a, b)]: the second argument only when it is strictly smaller. *)
Definition py_min (a b : Q) : Q := if Qle_bool a b then a else b.

(** [len(set(s))]: the number of distinct characters of [s]. *)
Definition distinct_chars (s : string) : nat :=
  List.length (nodup ascii_dec (PyStr.chars s)).

(* ------------------------------------------------------------------ *)
(** ** class SemanticAnalyzer *)

Module SemanticAnalyzer.

Definition common_patterns : list string :=
  ["123"; "qwerty"; "password"; "admin"; "welcome"; "111"; "abc"].

Definition is_common_pattern (password : string) : bool :=
  let pw_lower := PyStr.lower password in
  existsb (fun p => PyStr.contains p pw_lower) common_patterns.

Definition calculate_complexity (password : string) : result Q :=
  let! length := truediv (Z.of_nat (PyStr.len password)) 15 in
  let length := py_min length 1 in
  let! diversity := truediv (Z.of_nat (distinct_chars password))
                            (Z.of_nat (PyStr.len password)) in
  let upper :=
    if existsb PyChar.isupper (PyStr.chars password) then (1 # 5)%Q else 0%Q in
  let special :=
    if existsb (fun c => negb (PyChar.isalnum c)) (PyStr.chars password)
    then (1 # 5)%Q else 0%Q in
  let pattern := if is_common_pattern password then 0%Q else (3 # 10)%Q in
  Ok (length + diversity + upper + special + pattern)%Q.

End SemanticAnalyzer.

(* ------------------------------------------------------------------ *)
(** ** The platform: what [main.py] imports *)

(** [entropy] is the stream of raw draws behind [random.SystemRandom];
    [str_title] and [str_upper] are the two [str] methods whose results can
    leave U+0000..U+00FF; the remaining fields are scikit-learn:
    [TfidfVectorizer.fit_transform] and [transform] (on a vectorizer that
    is fitted or not), [NearestNeighbors.fit] and [kneighbors] (the index
    rows it returns). *)
Record Platform : Type := {
  entropy : nat -> nat;
  str_title : string -> string;
  str_upper : string -> string;
  Vocabulary : Type;
  Features : Type;
  Index : Type;
  tfidf_fit_transform : list string -> result (Vocabulary * Features);
  tfidf_transform : option Vocabulary -> list string -> result Features;
  nn_fit : Features -> result Index;
  nn_kneighbors : Index -> Features -> result (list (list Z))
}.

(* ------------------------------------------------------------------ *)
(** ** class AIPasswordOptimizer *)

Module AIPasswordOptimizer.

(** The object: [vectorizer] holds the fitted vocabulary once
    [fit_transform] has run, and [nn] is the attribute that exists only
    after [_train_similarity_model] has set it. *)
Record t (P : Platform) : Type := {
  dictionary : list string;
  vectorizer : option (Vocabulary P);
  nn : option (Index P)
}.

Arguments dictionary {P} _.
Arguments vectorizer {P} _.
Arguments nn {P} _.

Section Methods.
Variable P : Platform.

Definition _train_similarity_model (self : t P) : result (t P) :=
  if (List.length (dictionary self) <? 2)%nat then Ok self
  else
    let! vx := tfidf_fit_transform P (dictionary self) in
    let! fitted := nn_fit P (snd vx) in
    Ok {| dictionary := dictionary self;
          vectorizer := Some (fst vx);
          nn := Some fitted |}.

Definition __init__ (dict : list string) : result (t P) :=
  _train_similarity_model
    {| dictionary := dict; vectorizer := None; nn := None |}.

(** [self.nn]: [AttributeError] while the attribute has not been set. *)
Definition get_nn (self : t P) : result (Index P) :=
  match nn self with
  | Some i => Ok i
  | None => Raise AttributeError
  end.

Definition suggest_variations (self : t P) (base_word : string)
  : result (list string) :=
  try_except
    (let! vec := tfidf_transform P (vectorizer self) [base_word] in
     let! index := get_nn self in
     let! indices := nn_kneighbors P index vec in
     let! row := py_index indices 0 in
     rmap (py_index (dictionary self)) row)
    (fun _ => Ok []).

End Methods.

End AIPasswordOptimizer.

(* ------------------------------------------------------------------ *)
(** ** class QuantumChef *)

Module QuantumChef.

(** The dictionary [self.components], with its three keys. *)
Record Components : Type := {
  words : list string;
  numbers : list string;
  specials : list string
}.

(** The three values [_get_type] returns. *)
Inductive kind : Type := num | spec | word.

Definition kind_eqb (a b : kind) : bool :=
  match a, b with
  | num, num | spec, spec | word, word => true
  | _, _ => false
  end.

Definition _organize_ingredients (items : list string) : Components :=
  {| words := filter PyStr.isalpha items;
     numbers := filter PyStr.isdigit items;
     specials := filter (fun x => negb (PyStr.isalnum x)) items |}.

Definition _get_type (item : string) : kind :=
  if PyStr.isdigit item then num
  else if negb (PyStr.isalnum item) then spec
  else word.

Definition _is_memorable (combo : list string) : bool :=
  let type_seq := map _get_type combo in
  negb (existsb (fun ab => kind_eqb (fst ab) (snd ab))
                (combine type_seq (tl type_seq))).

Definition MAX_COMPONENTS : nat := 4.

(** The object: [combo_brew] is the deque, oldest entry first; [rng] is
    the number of draws [self.rng] has consumed so far. *)
Record t (P : Platform) : Type := {
  components : Components;
  combo_brew : list string;
  ai_optimizer : AIPasswordOptimizer.t P;
  rng : nat
}.

Arguments components {P} _.
Arguments combo_brew {P} _.
Arguments ai_optimizer {P} _.
Arguments rng {P} _.

(** What a method call yields: a value, an exception, or no answer within
    the fuel given to its [while] loop. *)
Inductive outcome (A : Type) : Type :=
| Returns (a : A)
| Raises (e : exn)
| OutOfFuel.

Arguments Returns {A} a.
Arguments Raises {A} e.
Arguments OutOfFuel {A}.

Section Methods.
Variable P : Platform.

(** A method body: it reads and updates the object and returns, raises or
    runs out of fuel; what it did to the object before raising stays. *)
Definition M (A : Type) : Type := t P -> outcome A * t P.

Definition ret {A : Type} (a : A) : M A := fun self => (Returns a, self).

Definition raise {A : Type} (e : exn) : M A := fun self => (Raises e, self).

Definition out_of_fuel {A : Type} : M A := fun self => (OutOfFuel, self).

Definition bind {A B : Type} (m : M A) (k : A -> M B) : M B :=
  fun self =>
    match m self with
    | (Returns a, self') => k a self'
    | (Raises e, self') => (Raises e, self')
    | (OutOfFuel, self') => (OutOfFuel, self')
    end.

(** A call of a loop-free function from a method. *)
Definition lift {A : Type} (r : result A) : M A :=
  match r with
  | Ok a => ret a
  | Raise e => raise e
  end.

Definition get : M (t P) := fun self => (Returns self, self).

(** [try: body / except ValueError: continue]. *)
Definition except_ValueError (body : M unit) : M unit :=
  fun self =>
    match body self with
    | (Raises ValueError, self') => (Returns tt, self')
    | r => r
    end.

Fixpoint for_each {A : Type} (l : list A) (body : A -> M unit) : M unit :=
  match l with
  | [] => ret tt
  | x :: l' => bind (body x) (fun _ => for_each l' body)
  end.

(** [range(lo, hi)]. *)
Definition range (lo hi : nat) : list nat := seq lo (hi - lo).

Notation "x <- m ;; k" := (bind m (fun x => k))
  (at level 61, m at next level, right associativity).
Notation "m ;;; k" := (bind m (fun _ => k))
  (at level 61, right associativity).

(** One raw draw of [self.rng], reduced below [n]. *)
Definition randbelow (n : nat) : M nat :=
  fun self =>
    (Returns (entropy P (rng self) mod n)%nat,
     {| components := components self;
        combo_brew := combo_brew self;
        ai_optimizer := ai_optimizer self;
        rng := S (rng self) |}).

(** [self.rng.choice(seq)]. *)
Definition choice {A : Type} (seq : list A) : M A :=
  match seq with
  | [] => raise IndexError
  | _ :: _ =>
      i <- randbelow (List.length seq) ;;
      match nth_error seq i with
      | Some x => ret x
      | None => raise IndexError
      end
  end.

Fixpoint remove_at {A : Type} (i : nat) (l : list A) : list A :=
  match l, i with
  | [], _ => []
  | _ :: l', O => l'
  | x :: l', S i' => x :: remove_at i' l'
  end.

(** [k] successive draws without replacement, in selection order. *)
Fixpoint draw {A : Type} (k : nat) (pool : list A) : M (list A) :=
  match k with
  | O => ret []
  | S k' =>
      j <- randbelow (List.length pool) ;;
      match nth_error pool j with
      | Some x => rest <- draw k' (remove_at j pool) ;; ret (x :: rest)
      | None => raise ValueError
      end
  end.

(** [self.rng.sample(population, k)]: [ValueError] when the sample is
    larger than the population. *)
Definition sample {A : Type} (population : list A) (k : nat) : M (list A) :=
  if (List.length population <? k)%nat then raise ValueError
  else draw k population.

Definition append (s : string) : M unit :=
  fun self =>
    (Returns tt,
     {| components := components self;
        combo_brew := combo_brew self ++ [s];
        ai_optimizer := ai_optimizer self;
        rng := rng self |}).

(** [self.combo_brew.popleft()]. *)
Definition popleft : M string :=
  fun self =>
    match combo_brew self with
    | [] => (Raises IndexError, self)
    | s :: rest =>
        (Returns s,
         {| components := components self;
            combo_brew := rest;
            ai_optimizer := ai_optimizer self;
            rng := rng self |})
    end.

Definition _cook_combo (combo : list string) : M string :=
  let transforms : list (string -> string) :=
    [ (fun s => str_title P s);
      (fun s => str_upper P s);
      (fun s => PyStr.join "-" combo);
      (fun s => PyStr.join "_" combo);
      (fun s => PyStr.join "" combo) ] in
  f <- choice transforms ;;
  ret (f (PyStr.join "" combo)).

(** The element pool of [_create_quantum_mix]. *)
Definition elements (c : Components) : list string :=
  (words c ++ words c) ++ numbers c ++ specials c.

Definition _create_quantum_mix : M unit :=
  self <- get ;;
  let elements := elements (components self) in
  for_each (range 2 (Nat.min MAX_COMPONENTS (List.length elements)))
    (fun mix_length =>
       for_each (range 0 (5 * mix_length))
         (fun _ =>
            except_ValueError
              (combo <- sample elements mix_length ;;
               if _is_memorable combo
               then cooked <- _cook_combo combo ;; append cooked
               else ret tt))).

Definition _add_quantum_spice (password : string) : M string :=
  self <- get ;;
  let enhancements : list (string -> M string) :=
    [ (fun s => n <- choice (numbers (components self)) ;; ret (s ++ n)%string);
      (fun s => c <- choice ["!"; "@"; "#"] ;; ret (c ++ s)%string);
      (fun s =>
         c <- choice ["-"; "_"; "~"] ;;
         ret (PyStr.take (PyStr.len s / 2) s ++ c
              ++ PyStr.drop (PyStr.len s / 2) s)%string);
      (fun s => ret s) ] in
  f <- choice enhancements ;;
  f password.

(** [while self.semantic.is_common_pattern(password): ...], at most [fuel]
    rounds. *)
Fixpoint repair (fuel : nat) (password : string) : M string :=
  if SemanticAnalyzer.is_common_pattern password then
    match fuel with
    | O => out_of_fuel
    | S fuel' =>
        password' <- _add_quantum_spice password ;;
        repair fuel' password'
    end
  else ret password.

Definition _ai_enhance (fuel : nat) (password : string) : M string :=
  self <- get ;;
  variations <-
    lift (AIPasswordOptimizer.suggest_variations P (ai_optimizer self) password) ;;
  password <-
    match variations with
    | [] => ret password
    | _ :: _ => choice (password :: variations)
    end ;;
  repair fuel password.

Definition bake_password (fuel : nat) : M string :=
  self <- get ;;
  match combo_brew self with
  | [] => _create_quantum_mix
  | _ :: _ => ret tt
  end ;;;
  base <- popleft ;;
  enhanced <- _add_quantum_spice base ;;
  _ai_enhance fuel enhanced.

Definition __init__ (ingredients : list string) : result (t P) :=
  let! optimizer := AIPasswordOptimizer.__init__ P ingredients in
  Ok {| components := _organize_ingredients ingredients;
        combo_brew := [];
        ai_optimizer := optimizer;
        rng := 0 |}.

End Methods.

End QuantumChef.

(* ------------------------------------------------------------------ *)
(** ** The generation loop of [main_flow] *)

Module MainFlow.

(** [count = min(1000, max(1, int(response)))], for the integer the
    response parses to. *)
Definition clamp_count (response : Z) : Z := Z.min 1000 (Z.max 1 response).

(** How a run of [main_flow] ends: [sys.exit(code)], an exception that
    nothing in [main_flow] catches, no end within the rounds given, or the
    list of passwords written to the output file. *)
Inductive ending : Type :=
| SysExit (code : Z)
| Uncaught (e : exn)
| NoAnswer
| Written (passwords : list string).

(** [score > 0.6]. *)
Definition above_threshold (score : Q) : bool := negb (Qle_bool score (6 # 10)).

Section Loop.
Variable P : Platform.

(** [while len(passwords) < oven.total: ...]: each round bakes a password
    and keeps it when its score is above 0.6; an exception of
    [bake_password] or of [calculate_complexity] leaves the loop.  The
    calls that only print (the progress display, the quality report) are
    left out.  [rounds] bounds the number of rounds, [fuel] the repair loop
    of each [bake_password]. *)
Fixpoint generate (rounds fuel total : nat) (passwords : list string)
  : QuantumChef.M P (list string) :=
  if (List.length passwords <? total)%nat then
    match rounds with
    | O => QuantumChef.out_of_fuel P
    | S rounds' =>
        QuantumChef.bind P (QuantumChef.bake_password P fuel) (fun pwd =>
        QuantumChef.bind P
          (QuantumChef.lift P (SemanticAnalyzer.calculate_complexity pwd))
          (fun score =>
             if above_threshold score
             then generate rounds' fuel total (passwords ++ [pwd])
             else generate rounds' fuel total passwords))
    end
  else QuantumChef.ret P passwords.

(** The number of rounds left before the user interrupts, one round
    later. *)
Definition tick (interrupt : option nat) : option nat :=
  match interrupt with
  | Some (S k) => Some k
  | other => other
  end.

(** [try: while ...: ... / except KeyboardInterrupt: ...]: the same loop,
    left with the passwords collected so far when the user interrupts.
    [interrupt] is the number of rounds completed before the interrupt
    arrives ([None]: it never does); a round cut short has added
    nothing to [passwords]. *)
Fixpoint try_generate (interrupt : option nat) (rounds fuel total : nat)
         (passwords : list string) : QuantumChef.M P (list string) :=
  match interrupt with
  | Some O => QuantumChef.ret P passwords
  | _ =>
      if (List.length passwords <? total)%nat then
        match rounds with
        | O => QuantumChef.out_of_fuel P
        | S rounds' =>
            QuantumChef.bind P (QuantumChef.bake_password P fuel) (fun pwd =>
            QuantumChef.bind P
              (QuantumChef.lift P (SemanticAnalyzer.calculate_complexity pwd))
              (fun score =>
                 if above_threshold score
                 then try_generate (tick interrupt) rounds' fuel total
                                   (passwords ++ [pwd])
                 else try_generate (tick interrupt) rounds' fuel total
                                   passwords))
        end
      else QuantumChef.ret P passwords
  end.

(** [main_flow] from the lines of the chosen dictionary and the parsed
    count on: [sys.exit(1)] for an empty dictionary, then
    [chef = QuantumChef(ingredients)], the interruptible loop from the
    empty list, and the list written to the output file.  An exception
    that nothing catches leaves [main_flow]; the prompts and the calls
    that only print are left out. *)
Definition main_flow (interrupt : option nat) (rounds fuel : nat)
           (ingredients : list string) (response : Z) : ending :=
  match ingredients with
  | [] => SysExit 1
  | _ :: _ =>
      let count := clamp_count response in
      match QuantumChef.__init__ P ingredients with
      | Raise e => Uncaught e
      | Ok chef =>
          match fst (try_generate interrupt rounds fuel (Z.to_nat count)
                                  [] chef) with
          | QuantumChef.Returns passwords => Written passwords
          | QuantumChef.Raises e => Uncaught e
          | QuantumChef.OutOfFuel => NoAnswer
          end
      end
  end.

End Loop.

End MainFlow.

Import SemanticAnalyzer.
Import QuantumChef.
Import MainFlow.

(* ------------------------------------------------------------------ *)
(** ** Spec-side readings, used to state the properties *)

(** [p] occurs in [s]: some text before it, some text after it. *)
Definition occurs_in (p s : string) : Prop :=
  exists pre post : string, s = (pre ++ p ++ post)%string.

(** Two neighbours of a combination have the same category. *)
Definition adjacent_same_kind (combo : list string) : Prop :=
  exists (i : nat) (a b : string),
    nth_error combo i = Some a /\ nth_error combo (S i) = Some b /\
    QuantumChef._get_type a = QuantumChef._get_type b.

(** The score as the specification words it: five components, summed. *)
Definition length_component (s : string) : Q :=
  Qmin (inject_Z (Z.of_nat (PyStr.len s)) / 15) 1.

Definition diversity_component (s : string) : Q :=
  inject_Z (Z.of_nat (distinct_chars s)) / inject_Z (Z.of_nat (PyStr.len s)).

Definition uppercase_bonus (s : string) : Q :=
  if existsb PyChar.isupper (PyStr.chars s) then 2 / 10 else 0.

Definition special_bonus (s : string) : Q :=
  if existsb (fun c => negb (PyChar.isalnum c)) (PyStr.chars s)
  then 2 / 10 else 0.

Definition pattern_bonus (s : string) : Q :=
  if SemanticAnalyzer.is_common_pattern s then 0 else 3 / 10.

Definition five_components (s : string) : Q :=
  length_component s + diversity_component s + uppercase_bonus s
  + special_bonus s + pattern_bonus s.

(** The value the body of [calculate_complexity] computes once both
    divisions have succeeded. *)
Definition score_value (password : string) : Q :=
  py_min (inject_Z (Z.of_nat (PyStr.len password)) / inject_Z 15) 1
  + inject_Z (Z.of_nat (distinct_chars password))
    / inject_Z (Z.of_nat (PyStr.len password))
  + (if existsb PyChar.isupper (PyStr.chars password) then 1 # 5 else 0)
  + (if existsb (fun c => negb (PyChar.isalnum c)) (PyStr.chars password)
     then 1 # 5 else 0)
  + (if is_common_pattern password then 0 else 3 # 10).

(* ------------------------------------------------------------------ *)
(** ** Vocabulary for the state of a [QuantumChef] *)

(** The object after one draw of [self.rng]. *)
Definition advance {P : Platform} (self : t P) : t P :=
  {| components := components self;
     combo_brew := combo_brew self;
     ai_optimizer := ai_optimizer self;
     rng := S (rng self) |}.

(** [self'] differs from [self] in the number of draws only. *)
Definition same_but_rng {P : Platform} (self self' : t P) : Prop :=
  components self' = components self /\
  combo_brew self' = combo_brew self /\
  ai_optimizer self' = ai_optimizer self.

(** [cooked] is one of the five results [_cook_combo] can give for
    [combo]. *)
Definition cooked_form (P : Platform) (combo : list string) (cooked : string)
  : Prop :=
  cooked = str_title P (PyStr.join "" combo) \/
  cooked = str_upper P (PyStr.join "" combo) \/
  cooked = PyStr.join "-" combo \/
  cooked = PyStr.join "_" combo \/
  cooked = PyStr.join "" combo.

(** [entry] was cooked from a memorable combination of two or three
    elements of [pool]. *)
Definition cooked_from_pool (P : Platform) (pool : list string) (entry : string)
  : Prop :=
  exists combo : list string,
    (List.length combo = 2 \/ List.length combo = 3)%nat /\
    incl combo pool /\
    _is_memorable combo = true /\
    cooked_form P combo entry.

(** [self'] is [self] with at most [n] entries appended to the buffer,
    each of them satisfying [Q]; the draw counter is free. *)
Definition grows {P : Platform} (Q : string -> Prop) (n : nat)
           (self self' : t P) : Prop :=
  components self' = components self /\
  ai_optimizer self' = ai_optimizer self /\
  exists added : list string,
    combo_brew self' = combo_brew self ++ added /\
    (List.length added <= n)%nat /\
    Forall Q added.

(** A password the loop may keep: no common pattern, score above 0.6. *)
Definition accepted (password : string) : Prop :=
  is_common_pattern password = false /\
  exists q : Q, calculate_complexity password = Ok q /\ 6 / 10 < q.

(* ------------------------------------------------------------------ *)
(** ** A concrete platform, for the instances below *)

(** [str.upper] and [str.title] on ASCII text: the letters a-z have their
    capitals 32 code points lower, and [title] capitalises a letter that
    follows a non-letter and lowers the other letters. *)
Definition ascii_upper_char (c : ascii) : ascii :=
  if PyChar.between 97 122 c then ascii_of_N (PyChar.code c - 32) else c.

Definition ascii_is_letter (c : ascii) : bool :=
  PyChar.between 65 90 c || PyChar.between 97 122 c.

Fixpoint ascii_upper (s : string) : string :=
  match s with
  | EmptyString => EmptyString
  | String c s' => String (ascii_upper_char c) (ascii_upper s')
  end.

Fixpoint ascii_title_from (inside_word : bool) (s : string) : string :=
  match s with
  | EmptyString => EmptyString
  | String c s' =>
      String (if inside_word then PyChar.lower c else ascii_upper_char c)
             (ascii_title_from (ascii_is_letter c) s')
  end.

(** Draw number [n] of the entropy stream is [n] itself; fitting succeeds,
    [transform] fails on a vectorizer that was never fitted, and the two
    nearest neighbours of every query are the first two dictionary
    entries. *)
Definition sample_platform : Platform :=
  {| entropy := fun n => n;
     str_title := ascii_title_from false;
     str_upper := ascii_upper;
     Vocabulary := unit;
     Features := unit;
     Index := unit;
     tfidf_fit_transform := fun _ => Ok (tt, tt);
     tfidf_transform :=
       fun v _ => match v with
                  | Some _ => Ok tt
                  | None => Raise (LibraryError 0)
                  end;
     nn_fit := fun _ => Ok tt;
     nn_kneighbors := fun _ _ => Ok [[0%Z; 1%Z]] |}.

(** A platform on which every draw is 3, so that every choice among four
    options takes the last one; fitting succeeds and every neighbour
    lookup fails. *)
Definition constant_platform : Platform :=
  {| entropy := fun _ => 3%nat;
     str_title := ascii_title_from false;
     str_upper := ascii_upper;
     Vocabulary := unit;
     Features := unit;
     Index := unit;
     tfidf_fit_transform := fun _ => Ok (tt, tt);
     tfidf_transform :=
       fun v _ => match v with
                  | Some _ => Ok tt
                  | None => Raise (LibraryError 0)
                  end;
     nn_fit := fun _ => Ok tt;
     nn_kneighbors := fun _ _ => Raise (LibraryError 1) |}.

(* ------------------------------------------------------------------ *)
(** ** Characters and strings: basic facts *)

Lemma alpha_not_digit (c : ascii) :
  PyChar.isalpha c = true -> PyChar.isdigit c = false.
Proof.
  destruct c as [[] [] [] [] [] [] [] []]; vm_compute; congruence.
Qed.

Lemma alpha_is_alnum (c : ascii) :
  PyChar.isalpha c = true -> PyChar.isalnum c = true.
Proof.
  unfold PyChar.isalnum. intros ->. reflexivity.
Qed.

Lemma digit_is_alnum (c : ascii) :
  PyChar.isdigit c = true -> PyChar.isalnum c = true.
Proof.
  unfold PyChar.isalnum. intros ->. rewrite !orb_true_r. reflexivity.
Qed.

Lemma all_chars_spec (p : ascii -> bool) (s : string) :
  PyStr.all_chars p s = true <->
  s <> "" /\ forall c, In c (PyStr.chars s) -> p c = true.
Proof.
  unfold PyStr.all_chars. destruct s as [|a s].
  - split; [discriminate | intros [H _]; now elim H].
  - rewrite forallb_forall. split.
    + intros H. split; [discriminate | exact H].
    + intros [_ H]. exact H.
Qed.

Lemma all_chars_weaken (p q : ascii -> bool) (s : string) :
  (forall c, p c = true -> q c = true) ->
  PyStr.all_chars p s = true -> PyStr.all_chars q s = true.
Proof.
  intros Hpq. rewrite !all_chars_spec. intros [Hne H]. split; auto.
Qed.

Lemma forallb_false {A : Type} (p : A -> bool) (l : list A) :
  forallb p l = false -> exists x, In x l /\ p x = false.
Proof.
  induction l as [|x l IH]; simpl; [discriminate|].
  destruct (p x) eqn:E.
  - intros H. destruct (IH H) as [y [Hy Hp]]. exists y. auto.
  - intros _. exists x. auto.
Qed.

Lemma all_chars_false (p : ascii -> bool) (s : string) :
  s <> "" ->
  (PyStr.all_chars p s = false <->
   exists c, In c (PyStr.chars s) /\ p c = false).
Proof.
  intros Hne. split.
  - intros H. destruct s as [|a s]; [now elim Hne|].
    unfold PyStr.all_chars in H. now apply forallb_false.
  - intros [c [Hc Hp]]. destruct (PyStr.all_chars p s) eqn:E; [|reflexivity].
    apply all_chars_spec in E. destruct E as [_ E].
    rewrite (E c Hc) in Hp. discriminate.
Qed.

Lemma isalpha_isalnum (s : string) :
  PyStr.isalpha s = true -> PyStr.isalnum s = true.
Proof. apply all_chars_weaken, alpha_is_alnum. Qed.

Lemma isdigit_isalnum (s : string) :
  PyStr.isdigit s = true -> PyStr.isalnum s = true.
Proof. apply all_chars_weaken, digit_is_alnum. Qed.

Lemma isalpha_not_isdigit (s : string) :
  PyStr.isalpha s = true -> PyStr.isdigit s = false.
Proof.
  destruct s as [|a s]; [discriminate|].
  unfold PyStr.isalpha, PyStr.isdigit, PyStr.all_chars. simpl.
  rewrite andb_true_iff. intros [Ha _].
  now rewrite (alpha_not_digit a Ha).
Qed.

(* ------------------------------------------------------------------ *)
(** ** The classifier: [_organize_ingredients] and [_get_type] *)


Lemma in_words (items : list string) (x : string) :
  In x (words (_organize_ingredients items)) <->
  In x items /\ PyStr.isalpha x = true.
Proof. apply filter_In. Qed.

Lemma in_numbers (items : list string) (x : string) :
  In x (numbers (_organize_ingredients items)) <->
  In x items /\ PyStr.isdigit x = true.
Proof. apply filter_In. Qed.

Lemma in_specials (items : list string) (x : string) :
  In x (specials (_organize_ingredients items)) <->
  In x items /\ PyStr.isalnum x = false.
Proof.
  unfold _organize_ingredients; simpl. rewrite filter_In, negb_true_iff.
  reflexivity.
Qed.

(** C8. For an ingredient list of non-empty strings, no token is in two of
    the lists [words], [numbers], [specials] that [_organize_ingredients]
    builds, and every element of the three lists is an element of the
    ingredient list. *)
Theorem organize_ingredients_disjoint_subset (items : list string) :
  Forall (fun x => x <> "") items ->
  (forall x, ~ (In x (words (_organize_ingredients items)) /\
                In x (numbers (_organize_ingredients items)))) /\
  (forall x, ~ (In x (words (_organize_ingredients items)) /\
                In x (specials (_organize_ingredients items)))) /\
  (forall x, ~ (In x (numbers (_organize_ingredients items)) /\
                In x (specials (_organize_ingredients items)))) /\
  (forall x, In x (words (_organize_ingredients items)) \/
             In x (numbers (_organize_ingredients items)) \/
             In x (specials (_organize_ingredients items)) ->
             In x items).
Proof.
  intros _. repeat split.
  - intros x [Hw Hn]. apply in_words in Hw. apply in_numbers in Hn.
    destruct Hw as [_ Hw]. destruct Hn as [_ Hn].
    apply isalpha_not_isdigit in Hw. congruence.
  - intros x [Hw Hs]. apply in_words in Hw. apply in_specials in Hs.
    destruct Hw as [_ Hw]. destruct Hs as [_ Hs].
    apply isalpha_isalnum in Hw. congruence.
  - intros x [Hn Hs]. apply in_numbers in Hn. apply in_specials in Hs.
    destruct Hn as [_ Hn]. destruct Hs as [_ Hs].
    apply isdigit_isalnum in Hn. congruence.
  - intros x [H | [H | H]].
    + now apply in_words in H.
    + now apply in_numbers in H.
    + now apply in_specials in H.
Qed.

Lemma organize_ingredients_disjoint_subset_witness :
  let items := ["quantum"; "7"; "!"; "forest"; "42"] in
  Forall (fun x => x <> "") items /\
  _organize_ingredients items =
    {| words := ["quantum"; "forest"]; numbers := ["7"; "42"];
       specials := ["!"] |} /\
  (forall x, In x (words (_organize_ingredients items)) \/
             In x (numbers (_organize_ingredients items)) \/
             In x (specials (_organize_ingredients items)) ->
             In x items).
Proof.
  assert (H : Forall (fun x : string => x <> "")
                     ["quantum"; "7"; "!"; "forest"; "42"])
    by (repeat constructor; discriminate).
  split; [exact H|]. split; [reflexivity|].
  apply (organize_ingredients_disjoint_subset _ H).
Defined.

(** C2, as the code has it. For an ingredient list of non-empty strings,
    [words] holds exactly the tokens made of letters only, [numbers] exactly
    the tokens made of digits only, and [specials] exactly the tokens with
    at least one non-alphanumeric character (such a token may contain
    alphanumeric characters too).  A token whose characters are all
    alphanumeric, but neither all letters nor all digits, is in none of
    the three lists. *)
Theorem organize_ingredients_predicates (items : list string) (x : string) :
  Forall (fun x => x <> "") items ->
  (In x (words (_organize_ingredients items)) <->
   In x items /\ forall c, In c (PyStr.chars x) -> PyChar.isalpha c = true) /\
  (In x (numbers (_organize_ingredients items)) <->
   In x items /\ forall c, In c (PyStr.chars x) -> PyChar.isdigit c = true) /\
  (In x (specials (_organize_ingredients items)) <->
   In x items /\ exists c, In c (PyStr.chars x) /\ PyChar.isalnum c = false) /\
  ((forall c, In c (PyStr.chars x) -> PyChar.isalnum c = true) ->
   (exists c, In c (PyStr.chars x) /\ PyChar.isalpha c = false) ->
   (exists c, In c (PyStr.chars x) /\ PyChar.isdigit c = false) ->
   ~ In x (words (_organize_ingredients items)) /\
   ~ In x (numbers (_organize_ingredients items)) /\
   ~ In x (specials (_organize_ingredients items))).
Proof.
  intros Hne. rewrite Forall_forall in Hne.
  rewrite in_words, in_numbers, in_specials.
  unfold PyStr.isalpha, PyStr.isdigit, PyStr.isalnum.
  split; [|split; [|split]].
  - rewrite all_chars_spec. split.
    + intros [Hin [_ H]]. auto.
    + intros [Hin H]. auto.
  - rewrite all_chars_spec. split.
    + intros [Hin [_ H]]. auto.
    + intros [Hin H]. auto.
  - split.
    + intros [Hin H]. split; [exact Hin|].
      apply all_chars_false in H; auto.
    + intros [Hin H]. split; [exact Hin|].
      apply all_chars_false; auto.
  - intros Halnum [a [Ha Hna]] [d [Hd Hnd]]. repeat split.
    + intros [_ H]. apply all_chars_spec in H. destruct H as [_ H].
      rewrite (H a Ha) in Hna. discriminate.
    + intros [_ H]. apply all_chars_spec in H. destruct H as [_ H].
      rewrite (H d Hd) in Hnd. discriminate.
    + intros [Hin H]. apply all_chars_false in H; auto.
      destruct H as [c [Hc Hf]]. rewrite (Halnum c Hc) in Hf. discriminate.
Qed.

Lemma organize_ingredients_predicates_witness :
  let items := ["a!"; "a1"; "cat"; "7"] in
  Forall (fun x => x <> "") items /\
  (In "a!" (specials (_organize_ingredients items)) <->
   In "a!" items /\
   exists c, In c (PyStr.chars "a!") /\ PyChar.isalnum c = false).
Proof.
  assert (H : Forall (fun x : string => x <> "") ["a!"; "a1"; "cat"; "7"])
    by (repeat constructor; discriminate).
  split; [exact H|].
  apply (organize_ingredients_predicates _ "a!" H).
Defined.

(** C2 as stated fails: the one-token list ["a!"] consists of a non-empty
    string, and its token lands in [specials] although it contains the
    alphanumeric character [a]; it is not excluded. *)
Lemma specials_accept_mixed_symbol_token :
  Forall (fun x => x <> "") ["a!"] /\
  In "a!" (specials (_organize_ingredients ["a!"])) /\
  In "a"%char (PyStr.chars "a!") /\
  PyChar.isalnum "a"%char = true.
Proof.
  split; [repeat constructor; discriminate|].
  split; [left; reflexivity|].
  split; [left; reflexivity | reflexivity].
Qed.

(** C10. When the ingredient list contains the empty string, the empty
    string is in [specials], in neither [words] nor [numbers], and
    [_get_type] gives it the category [spec]. *)
Theorem empty_token_is_special (items : list string) :
  In "" items ->
  In "" (specials (_organize_ingredients items)) /\
  ~ In "" (words (_organize_ingredients items)) /\
  ~ In "" (numbers (_organize_ingredients items)) /\
  _get_type "" = spec.
Proof.
  intros Hin. rewrite in_words, in_numbers, in_specials.
  repeat split; auto; intros [_ H]; discriminate.
Qed.

Lemma empty_token_is_special_witness :
  In "" ["cat"; ""; "7"] /\
  In "" (specials (_organize_ingredients ["cat"; ""; "7"])) /\
  ~ In "" (words (_organize_ingredients ["cat"; ""; "7"])) /\
  ~ In "" (numbers (_organize_ingredients ["cat"; ""; "7"])) /\
  _get_type "" = spec.
Proof.
  assert (H : In "" ["cat"; ""; "7"]) by (right; left; reflexivity).
  split; [exact H|]. apply (empty_token_is_special _ H).
Defined.

(* ------------------------------------------------------------------ *)
(** ** The memorability filter: [_is_memorable] *)

Lemma kind_eqb_eq (a b : kind) : kind_eqb a b = true <-> a = b.
Proof. destruct a, b; simpl; split; congruence. Qed.

(** [zip(l, l[1:])] pairs each element with its successor. *)
Lemma existsb_neighbours {A : Type} (f : A * A -> bool) (l : list A) :
  existsb f (combine l (tl l)) = true <->
  exists (i : nat) (a b : A),
    nth_error l i = Some a /\ nth_error l (S i) = Some b /\ f (a, b) = true.
Proof.
  induction l as [|x l IH].
  - simpl. split; [discriminate|].
    intros (i & a & b & H & _). destruct i; discriminate.
  - destruct l as [|y l].
    + simpl. split; [discriminate|].
      intros (i & a & b & _ & H & _). destruct i as [|[|i]]; discriminate.
    + change (combine (x :: y :: l) (tl (x :: y :: l)))
        with ((x, y) :: combine (y :: l) (tl (y :: l))).
      simpl existsb. rewrite orb_true_iff, IH. split.
      * intros [H | (i & a & b & Ha & Hb & Hf)].
        -- exists 0%nat, x, y. auto.
        -- exists (S i), a, b. auto.
      * intros (i & a & b & Ha & Hb & Hf). destruct i as [|i].
        -- left. simpl in Ha, Hb. congruence.
        -- right. exists i, a, b. auto.
Qed.

Lemma is_memorable_false (combo : list string) :
  _is_memorable combo = false <-> adjacent_same_kind combo.
Proof.
  unfold _is_memorable, adjacent_same_kind.
  rewrite negb_false_iff, existsb_neighbours. split.
  - intros (i & ka & kb & Ha & Hb & Heq).
    rewrite nth_error_map in Ha, Hb.
    destruct (nth_error combo i) as [a|] eqn:Ea; [|discriminate].
    destruct (nth_error combo (S i)) as [b|] eqn:Eb; [|discriminate].
    simpl in Ha, Hb. apply kind_eqb_eq in Heq. simpl in Heq.
    exists i, a, b. repeat split; congruence.
  - intros (i & a & b & Ha & Hb & Heq).
    exists i, (_get_type a), (_get_type b).
    rewrite !nth_error_map, Ha, Hb. simpl.
    repeat split. now apply kind_eqb_eq.
Qed.

(** C7. [_is_memorable] rejects a combination exactly when two adjacent
    elements have the same category, the category of an element being
    [num] when it is digit-only, [spec] when it is not alphanumeric and
    [word] otherwise; it rejects ["cat"; "dog"] and accepts
    ["cat"; "7"; "!"]. *)
Theorem is_memorable_rejects_iff_adjacent_same_kind :
  (forall combo : list string,
     _is_memorable combo = false <-> adjacent_same_kind combo) /\
  (forall item : string,
     _get_type item =
       if PyStr.isdigit item then num
       else if PyStr.isalnum item then word else spec) /\
  _get_type "cat" = word /\ _get_type "dog" = word /\
  _get_type "7" = num /\ _get_type "!" = spec /\
  _is_memorable ["cat"; "dog"] = false /\
  _is_memorable ["cat"; "7"; "!"] = true.
Proof.
  split; [exact is_memorable_false|].
  split.
  - intros item. unfold _get_type.
    destruct (PyStr.isdigit item), (PyStr.isalnum item); reflexivity.
  - repeat split.
Qed.

(* ------------------------------------------------------------------ *)
(** ** The weak-pattern test: [is_common_pattern] *)


Lemma prefix_spec (p s : string) :
  String.prefix p s = true <-> exists post : string, s = (p ++ post)%string.
Proof.
  revert s. induction p as [|a p IH]; intros [|b s]; simpl.
  - split; [intros _; now exists "" | reflexivity].
  - split; [intros _; now exists (String b s) | reflexivity].
  - split; [discriminate | intros [post H]; discriminate].
  - destruct (ascii_dec a b) as [->|Hab].
    + rewrite IH. split; intros [post H]; exists post; congruence.
    + split; [discriminate | intros [post H]; congruence].
Qed.

Lemma contains_spec (p s : string) :
  PyStr.contains p s = true <-> occurs_in p s.
Proof.
  unfold occurs_in. induction s as [|c s IH].
  - change (PyStr.contains p "") with (String.prefix p "" || false).
    rewrite orb_false_r, prefix_spec. split.
    + intros [post H]. now exists "", post.
    + intros [[|a pre] [post H]]; [now exists post | discriminate].
  - change (PyStr.contains p (String c s))
      with (String.prefix p (String c s) || PyStr.contains p s).
    rewrite orb_true_iff, prefix_spec, IH. split.
    + intros [[post H] | (pre & post & H)].
      * now exists "", post.
      * exists (String c pre), post. simpl. now rewrite H.
    + intros [[|a pre] [post H]].
      * left. now exists post.
      * right. exists pre, post. simpl in H. congruence.
Qed.

(** C6. [is_common_pattern] holds exactly when the lowercase form of the
    candidate contains one of the seven fixed substrings; it holds for
    "Summer123!" and not for "Xk9#mQ2z". *)
Theorem is_common_pattern_iff_lowercase_contains :
  (forall password : string,
     is_common_pattern password = true <->
     exists p : string,
       In p ["123"; "qwerty"; "password"; "admin"; "welcome"; "111"; "abc"] /\
       occurs_in p (PyStr.lower password)) /\
  PyStr.lower "Summer123!" = "summer123!" /\
  is_common_pattern "Summer123!" = true /\
  is_common_pattern "Xk9#mQ2z" = false.
Proof.
  split; [|repeat split].
  intros password. unfold is_common_pattern. rewrite existsb_exists.
  split; intros [p [Hin H]]; exists p; (split; [exact Hin|]);
    now apply contains_spec.
Qed.

(* ------------------------------------------------------------------ *)
(** ** The strength score: [calculate_complexity] *)

Lemma chars_length (s : string) : List.length (PyStr.chars s) = PyStr.len s.
Proof.
  unfold PyStr.chars, PyStr.len.
  induction s as [|c s IH]; simpl; [reflexivity | now rewrite IH].
Qed.

Lemma len_pos (s : string) : s <> "" -> (0 < Z.of_nat (PyStr.len s))%Z.
Proof.
  destruct s as [|c s]; [intros H; now elim H|].
  intros _. unfold PyStr.len. simpl String.length. lia.
Qed.

Lemma distinct_chars_le_len (s : string) : (distinct_chars s <= PyStr.len s)%nat.
Proof.
  unfold distinct_chars. rewrite <- chars_length.
  apply NoDup_incl_length; [apply NoDup_nodup|].
  intros c Hc. now apply nodup_In in Hc.
Qed.

Lemma distinct_chars_pos (s : string) : s <> "" -> (0 < distinct_chars s)%nat.
Proof.
  destruct s as [|c s]; [intros H; now elim H|]. intros _.
  unfold distinct_chars.
  assert (Hin : In c (nodup ascii_dec (PyStr.chars (String c s))))
    by (apply nodup_In; left; reflexivity).
  destruct (nodup ascii_dec (PyStr.chars (String c s))); [destruct Hin|].
  simpl. lia.
Qed.

Lemma calculate_complexity_nonempty (password : string) :
  password <> "" ->
  calculate_complexity password = Ok (score_value password).
Proof.
  intros Hne. pose proof (len_pos password Hne) as Hlen.
  unfold calculate_complexity, truediv. simpl rbind.
  destruct (Z.eqb_spec (Z.of_nat (PyStr.len password)) 0) as [E|_]; [lia|].
  reflexivity.
Qed.

Lemma py_min_Qmin (a b : Q) : py_min a b == Qmin a b.
Proof.
  unfold py_min. destruct (Qle_bool a b) eqn:E.
  - apply Qle_bool_iff in E. symmetry. now apply Q.min_l.
  - assert (H : ~ a <= b) by (rewrite <- Qle_bool_iff; congruence).
    symmetry. apply Q.min_r. apply Qlt_le_weak. now apply Qnot_le_lt.
Qed.

Lemma score_value_five_components (password : string) :
  score_value password == five_components password.
Proof.
  unfold score_value, five_components, length_component, diversity_component,
    uppercase_bonus, special_bonus, pattern_bonus.
  rewrite py_min_Qmin.
  destruct (existsb PyChar.isupper (PyStr.chars password)),
    (existsb (fun c => negb (PyChar.isalnum c)) (PyStr.chars password)),
    (is_common_pattern password);
    repeat apply Qplus_comp; reflexivity.
Qed.

Lemma py_min_one_bounds (a : Q) : 0 <= a -> 0 <= py_min a 1 /\ py_min a 1 <= 1.
Proof.
  intros Ha. unfold py_min. destruct (Qle_bool a 1) eqn:E.
  - apply Qle_bool_iff in E. split; assumption.
  - split; lra.
Qed.

Lemma length_ratio_nonneg (s : string) :
  0 <= inject_Z (Z.of_nat (PyStr.len s)) / inject_Z 15.
Proof.
  apply Qle_shift_div_l; [reflexivity|].
  rewrite Qmult_0_l. change 0 with (inject_Z 0). rewrite <- Zle_Qle. lia.
Qed.

Lemma diversity_bounds (s : string) :
  s <> "" ->
  0 < inject_Z (Z.of_nat (distinct_chars s)) / inject_Z (Z.of_nat (PyStr.len s))
  /\ inject_Z (Z.of_nat (distinct_chars s)) / inject_Z (Z.of_nat (PyStr.len s))
     <= 1.
Proof.
  intros Hne.
  pose proof (len_pos s Hne) as Hlen.
  pose proof (distinct_chars_pos s Hne) as Hd.
  pose proof (distinct_chars_le_len s) as Hle.
  assert (HlenQ : 0 < inject_Z (Z.of_nat (PyStr.len s))).
  { change 0 with (inject_Z 0). rewrite <- Zlt_Qlt. exact Hlen. }
  split.
  - apply Qlt_shift_div_l; [exact HlenQ|].
    rewrite Qmult_0_l. change 0 with (inject_Z 0). rewrite <- Zlt_Qlt. lia.
  - apply Qle_shift_div_r; [exact HlenQ|].
    rewrite Qmult_1_l. rewrite <- Zle_Qle. lia.
Qed.

Lemma score_value_bounds (s : string) :
  s <> "" -> 0 < score_value s /\ score_value s <= 27 # 10.
Proof.
  intros Hne. unfold score_value.
  destruct (py_min_one_bounds _ (length_ratio_nonneg s)) as [Hl0 Hl1].
  destruct (diversity_bounds s Hne) as [Hd0 Hd1].
  set (l := py_min _ 1) in *.
  set (d := inject_Z (Z.of_nat (distinct_chars s)) / _) in *.
  destruct (existsb PyChar.isupper (PyStr.chars s)),
    (existsb (fun c => negb (PyChar.isalnum c)) (PyStr.chars s)),
    (is_common_pattern s); split; lra.
Qed.

(** C3, as the code has it. [calculate_complexity] returns a score for
    every non-empty candidate string and fails on none of them. *)
Theorem calculate_complexity_total_on_nonempty (password : string) :
  password <> "" ->
  exists q : Q, calculate_complexity password = Ok q.
Proof.
  intros Hne. exists (score_value password).
  now apply calculate_complexity_nonempty.
Qed.

Lemma calculate_complexity_total_on_nonempty_witness :
  "quantum7" <> "" /\ exists q : Q, calculate_complexity "quantum7" = Ok q.
Proof.
  assert (H : "quantum7" <> "") by discriminate.
  split; [exact H|]. apply (calculate_complexity_total_on_nonempty _ H).
Defined.

(** C3 as stated fails: on the empty candidate the second division of
    [calculate_complexity] has a zero divisor, so the call raises
    [ZeroDivisionError] and returns no score, 0 or other. *)
Lemma calculate_complexity_empty_raises :
  calculate_complexity "" = Raise ZeroDivisionError /\
  calculate_complexity "" <> Ok 0.
Proof. split; [reflexivity | discriminate]. Qed.

(** C4. For every non-empty candidate, [calculate_complexity] returns the
    sum of the five components: min(length/15, 1), distinct characters
    over length, 0.2 for an uppercase character, 0.2 for a
    non-alphanumeric character, 0.3 when [is_common_pattern] is false.
    For fifteen times the letter a, this is 1 + 1/15 + 0.3 = 41/30, which
    is 1.367 to three decimals. *)
Theorem calculate_complexity_is_five_component_sum :
  (forall password : string,
     password <> "" ->
     exists q : Q,
       calculate_complexity password = Ok q /\ q == five_components password) /\
  (exists q : Q,
     calculate_complexity "aaaaaaaaaaaaaaa" = Ok q /\
     length_component "aaaaaaaaaaaaaaa" == 1 /\
     diversity_component "aaaaaaaaaaaaaaa" == 1 / 15 /\
     uppercase_bonus "aaaaaaaaaaaaaaa" == 0 /\
     special_bonus "aaaaaaaaaaaaaaa" == 0 /\
     pattern_bonus "aaaaaaaaaaaaaaa" == 3 / 10 /\
     q == 1 + 1 / 15 + 3 / 10 /\
     13665 / 10000 < q /\ q < 13675 / 10000).
Proof.
  split.
  - intros password Hne. exists (score_value password). split.
    + now apply calculate_complexity_nonempty.
    + apply score_value_five_components.
  - eexists. split; [vm_compute; reflexivity|].
    repeat split; vm_compute; congruence.
Qed.

Lemma calculate_complexity_is_five_component_sum_witness :
  "Aa1!" <> "" /\
  exists q : Q,
    calculate_complexity "Aa1!" = Ok q /\ q == five_components "Aa1!".
Proof.
  assert (H : "Aa1!" <> "") by discriminate.
  split; [exact H|].
  apply (proj1 calculate_complexity_is_five_component_sum _ H).
Defined.

(** C5, as the code has it. For every non-empty candidate the score is
    never negative (it is positive) and never exceeds 2.7; the bound 2.7
    is reached, so the score can exceed 1.7. *)
Theorem calculate_complexity_range :
  (forall password : string,
     password <> "" ->
     exists q : Q,
       calculate_complexity password = Ok q /\ 0 <= q /\ q <= 27 / 10) /\
  (exists q : Q,
     calculate_complexity "Zyxwvutsrqponm!" = Ok q /\ q == 27 / 10).
Proof.
  split.
  - intros password Hne. exists (score_value password).
    destruct (score_value_bounds password Hne) as [H0 H1].
    split; [now apply calculate_complexity_nonempty|].
    split; [now apply Qlt_le_weak | exact H1].
  - eexists. split; [vm_compute; reflexivity | vm_compute; reflexivity].
Qed.

Lemma calculate_complexity_range_witness :
  "A!" <> "" /\
  exists q : Q, calculate_complexity "A!" = Ok q /\ 0 <= q /\ q <= 27 / 10.
Proof.
  assert (H : "A!" <> "") by discriminate.
  split; [exact H|].
  apply (proj1 calculate_complexity_range _ H).
Defined.

(** C5 as stated fails: the two-character candidate "A!" scores
    2/15 + 1 + 0.2 + 0.2 + 0.3 = 11/6, which is above 1.7. *)
Lemma calculate_complexity_exceeds_1_7 :
  exists q : Q,
    calculate_complexity "A!" = Ok q /\ q == 11 / 6 /\ 17 / 10 < q.
Proof.
  eexists. split; [vm_compute; reflexivity|].
  split; vm_compute; reflexivity.
Qed.

(* ------------------------------------------------------------------ *)
(** ** The advisor: [suggest_variations] *)

Lemma init_small_dictionary (P : Platform) (dict : list string) :
  (List.length dict < 2)%nat ->
  AIPasswordOptimizer.__init__ P dict =
    Ok {| AIPasswordOptimizer.dictionary := dict;
          AIPasswordOptimizer.vectorizer := None;
          AIPasswordOptimizer.nn := None |}.
Proof.
  intros Hlen. unfold AIPasswordOptimizer.__init__,
    AIPasswordOptimizer._train_similarity_model. simpl.
  destruct (Nat.ltb_spec (List.length dict) 2) as [_|H]; [reflexivity | lia].
Qed.

Lemma suggest_variations_untrained (P : Platform)
      (self : AIPasswordOptimizer.t P) (base_word : string) :
  AIPasswordOptimizer.nn self = None ->
  AIPasswordOptimizer.suggest_variations P self base_word = Ok [].
Proof.
  intros Hnn. unfold AIPasswordOptimizer.suggest_variations,
    AIPasswordOptimizer.get_nn. rewrite Hnn.
  destruct (tfidf_transform P _ _); reflexivity.
Qed.

(** C9. [suggest_variations] returns the empty list, and raises nothing,
    for every query when the dictionary has fewer than two entries, when
    vectorization fails and when the neighbour lookup fails; whatever the
    library does, the call returns a list and raises nothing. *)
Theorem suggest_variations_never_raises (P : Platform) :
  (forall dict : list string,
     (List.length dict < 2)%nat ->
     exists self : AIPasswordOptimizer.t P,
       AIPasswordOptimizer.__init__ P dict = Ok self /\
       forall base_word : string,
         AIPasswordOptimizer.suggest_variations P self base_word = Ok []) /\
  (forall (self : AIPasswordOptimizer.t P) (base_word : string) (e : exn),
     tfidf_transform P (AIPasswordOptimizer.vectorizer self) [base_word]
       = Raise e ->
     AIPasswordOptimizer.suggest_variations P self base_word = Ok []) /\
  (forall (self : AIPasswordOptimizer.t P) (base_word : string)
          (vec : Features P) (index : Index P) (e : exn),
     tfidf_transform P (AIPasswordOptimizer.vectorizer self) [base_word]
       = Ok vec ->
     AIPasswordOptimizer.nn self = Some index ->
     nn_kneighbors P index vec = Raise e ->
     AIPasswordOptimizer.suggest_variations P self base_word = Ok []) /\
  (forall (self : AIPasswordOptimizer.t P) (base_word : string),
     exists variations : list string,
       AIPasswordOptimizer.suggest_variations P self base_word
         = Ok variations).
Proof.
  split; [|split; [|split]].
  - intros dict Hlen. eexists. split; [now apply init_small_dictionary|].
    intros base_word. now apply suggest_variations_untrained.
  - intros self base_word e H.
    unfold AIPasswordOptimizer.suggest_variations. now rewrite H.
  - intros self base_word vec index e Hvec Hnn Hk.
    unfold AIPasswordOptimizer.suggest_variations, AIPasswordOptimizer.get_nn.
    rewrite Hvec, Hnn. simpl. now rewrite Hk.
  - intros self base_word. unfold AIPasswordOptimizer.suggest_variations.
    match goal with
    | |- exists v, try_except ?b _ = _ => destruct b as [l|e]
    end; simpl; eauto.
Qed.

Lemma suggest_variations_never_raises_witness :
  (List.length ["cat"] < 2)%nat /\
  exists self : AIPasswordOptimizer.t sample_platform,
    AIPasswordOptimizer.__init__ sample_platform ["cat"] = Ok self /\
    forall base_word : string,
      AIPasswordOptimizer.suggest_variations sample_platform self base_word
        = Ok [].
Proof.
  assert (H : (List.length ["cat"] < 2)%nat) by (simpl; lia).
  split; [exact H|].
  apply (proj1 (suggest_variations_never_raises sample_platform) _ H).
Defined.

(* ------------------------------------------------------------------ *)
(** ** The pipeline: [_create_quantum_mix] and [bake_password] *)

(** With at most two elements in the pool, [range(2, min(4, len))] is
    empty and the refill leaves the object as it was. *)
Lemma create_quantum_mix_small_pool (P : Platform) (self : t P) :
  (List.length (elements (components self)) <= 2)%nat ->
  _create_quantum_mix P self = (Returns tt, self).
Proof.
  intros Hlen. unfold _create_quantum_mix, bind, get, range.
  replace (Nat.min MAX_COMPONENTS (List.length (elements (components self))) - 2)%nat
    with 0%nat by (unfold MAX_COMPONENTS; lia).
  reflexivity.
Qed.

Lemma bake_password_small_pool (P : Platform) (fuel : nat) (self : t P) :
  combo_brew self = [] ->
  (List.length (elements (components self)) <= 2)%nat ->
  bake_password P fuel self = (Raises IndexError, self).
Proof.
  intros Hbrew Hlen. unfold bake_password, bind at 1 2, get.
  rewrite Hbrew, (create_quantum_mix_small_pool P self Hlen).
  unfold bind, popleft. now rewrite Hbrew.
Qed.

Lemma init_components (P : Platform) (ingredients : list string) (self : t P) :
  QuantumChef.__init__ P ingredients = Ok self ->
  components self = _organize_ingredients ingredients /\ combo_brew self = [].
Proof.
  unfold QuantumChef.__init__.
  destruct (AIPasswordOptimizer.__init__ P ingredients); simpl; [|discriminate].
  intros [= <-]. split; reflexivity.
Qed.

Lemma bake_password_empty_after_refill
      (P : Platform) (fuel : nat) (self self' : t P) :
  combo_brew self = [] ->
  _create_quantum_mix P self = (Returns tt, self') ->
  combo_brew self' = [] ->
  bake_password P fuel self = (Raises IndexError, self').
Proof.
  intros Hbrew Hmix Hbrew'. unfold bake_password, bind at 1 2, get.
  rewrite Hbrew, Hmix. unfold bind, popleft. now rewrite Hbrew'.
Qed.

(** C1 as stated fails: for the ingredient list ["cat"] the category
    [words] is not empty, the chef is built on every platform, and
    [bake_password] raises [IndexError] whatever the random draws are. *)
Lemma bake_password_single_word_raises :
  words (_organize_ingredients ["cat"]) = ["cat"] /\
  forall (P : Platform) (fuel : nat),
  exists self : t P,
    QuantumChef.__init__ P ["cat"] = Ok self /\
    fst (bake_password P fuel self) = Raises IndexError.
Proof.
  split; [reflexivity|]. intros P fuel. eexists. split.
  - unfold QuantumChef.__init__.
    rewrite (init_small_dictionary P ["cat"]) by (simpl; lia). reflexivity.
  - rewrite bake_password_small_pool; [reflexivity | reflexivity | simpl; lia].
Qed.

(** The pipeline at work on the sample platform: the five-token list of the
    specification yields a password, and a list of two words, whose pool
    has four entries of one category, yields none. *)
Example bake_password_returns_on_sample :
  exists self : t sample_platform,
    QuantumChef.__init__ sample_platform
      ["quantum"; "7"; "!"; "forest"; "42"] = Ok self /\
    fst (bake_password sample_platform 10 self) = Returns "quantum" /\
    List.length (combo_brew (snd (bake_password sample_platform 10 self)))
      = 14%nat.
Proof.
  eexists. split; [reflexivity|].
  split; vm_compute; reflexivity.
Qed.

Example bake_password_two_words_raises :
  exists self : t sample_platform,
    QuantumChef.__init__ sample_platform ["cat"; "dog"] = Ok self /\
    elements (components self) = ["cat"; "dog"; "cat"; "dog"] /\
    fst (bake_password sample_platform 10 self) = Raises IndexError.
Proof.
  eexists. split; [reflexivity|].
  split; [reflexivity | vm_compute; reflexivity].
Qed.

(* ------------------------------------------------------------------ *)
(** ** How the methods of [QuantumChef] use the object *)

Lemma pair_of_fst {A B : Type} (p : A * B) (a : A) :
  fst p = a -> p = (a, snd p).
Proof. intros <-. now destruct p. Qed.

Section Frames.
Variable P : Platform.

Lemma randbelow_advance (n : nat) (self : t P) :
  randbelow P n self = (Returns (entropy P (rng self) mod n)%nat, advance self).
Proof. reflexivity. Qed.

Lemma bind_returns {A B : Type} (m : M P A) (k : A -> M P B)
      (self self' : t P) (a : A) :
  m self = (Returns a, self') -> bind P m k self = k a self'.
Proof. intros H. unfold bind. now rewrite H. Qed.

Lemma same_but_rng_refl (self : t P) : same_but_rng self self.
Proof. repeat split. Qed.

Lemma same_but_rng_trans (a b c : t P) :
  same_but_rng a b -> same_but_rng b c -> same_but_rng a c.
Proof.
  unfold same_but_rng. intros (H1 & H2 & H3) (H4 & H5 & H6).
  repeat split; congruence.
Qed.

Lemma same_but_rng_advance (self : t P) : same_but_rng self (advance self).
Proof. repeat split. Qed.

(** [choice] fails on the empty sequence only; otherwise it uses one draw
    and returns the element at the drawn position. *)
Lemma choice_outcome {A : Type} (seq : list A) (self : t P) :
  (seq = [] /\ choice P seq self = (Raises IndexError, self)) \/
  (exists x : A,
     nth_error seq (entropy P (rng self) mod List.length seq) = Some x /\
     choice P seq self = (Returns x, advance self)).
Proof.
  destruct seq as [|a seq]; [left; split; reflexivity|].
  right. unfold choice, bind. rewrite randbelow_advance.
  set (i := (entropy P (rng self) mod List.length (a :: seq))%nat).
  assert (Hi : (i < List.length (a :: seq))%nat)
    by (apply Nat.mod_upper_bound; simpl; lia).
  destruct (nth_error (a :: seq) i) as [x|] eqn:E.
  - exists x. split; reflexivity.
  - apply nth_error_None in E. lia.
Qed.

Lemma remove_at_incl {A : Type} (i : nat) (l : list A) :
  incl (remove_at i l) l.
Proof.
  revert i. induction l as [|x l IH]; intros i; simpl.
  - destruct i; apply incl_refl.
  - destruct i as [|i].
    + apply incl_tl, incl_refl.
    + apply incl_cons; [left; reflexivity|]. apply incl_tl, IH.
Qed.

(** [draw] returns [k] elements of the pool or raises [ValueError]; it
    changes nothing but the draw counter. *)
Lemma draw_outcome {A : Type} (k : nat) (pool : list A) (self : t P) :
  exists self' : t P,
    same_but_rng self self' /\
    ((exists combo : list A,
        draw P k pool self = (Returns combo, self') /\
        List.length combo = k /\ incl combo pool) \/
     draw P k pool self = (Raises ValueError, self')).
Proof.
  revert pool self. induction k as [|k IH]; intros pool self.
  - exists self. split; [apply same_but_rng_refl|]. left.
    exists []. repeat split. apply incl_nil_l.
  - assert (Hstep :
      draw P (S k) pool self =
      match nth_error pool (entropy P (rng self) mod List.length pool) with
      | Some x =>
          bind P (draw P k (remove_at (entropy P (rng self) mod List.length pool)
                                      pool))
               (fun rest => ret P (x :: rest)) (advance self)
      | None => (Raises ValueError, advance self)
      end).
    { cbn [draw]. unfold bind at 1. rewrite randbelow_advance.
      now destruct (nth_error pool _). }
    rewrite Hstep. clear Hstep.
    destruct (nth_error pool _) as [x|] eqn:E.
    + destruct (IH (remove_at (entropy P (rng self) mod List.length pool) pool)
                   (advance self)) as (self' & Hs & [(combo & Hd & Hl & Hi) | Hd]).
      * exists self'. split.
        { eapply same_but_rng_trans; [apply same_but_rng_advance | exact Hs]. }
        left. exists (x :: combo). unfold bind. rewrite Hd. simpl.
        repeat split; [now rewrite Hl|].
        apply incl_cons; [now apply nth_error_In in E|].
        eapply incl_tran; [exact Hi | apply remove_at_incl].
      * exists self'. split.
        { eapply same_but_rng_trans; [apply same_but_rng_advance | exact Hs]. }
        right. unfold bind. now rewrite Hd.
    + exists (advance self). split; [apply same_but_rng_advance|].
      right. reflexivity.
Qed.

Lemma sample_outcome {A : Type} (population : list A) (k : nat) (self : t P) :
  exists self' : t P,
    same_but_rng self self' /\
    ((exists combo : list A,
        sample P population k self = (Returns combo, self') /\
        List.length combo = k /\ incl combo population) \/
     sample P population k self = (Raises ValueError, self')).
Proof.
  unfold sample. destruct (List.length population <? k)%nat.
  - exists self. split; [apply same_but_rng_refl | right; reflexivity].
  - apply draw_outcome.
Qed.

(** [_cook_combo] always returns one of its five forms, after one draw. *)
Lemma cook_combo_outcome (combo : list string) (self : t P) :
  exists cooked : string,
    _cook_combo P combo self = (Returns cooked, advance self) /\
    cooked_form P combo cooked.
Proof.
  unfold _cook_combo, bind.
  match goal with
  | |- context [choice P ?seq self] =>
      destruct (choice_outcome seq self) as [[Hnil _] | (f & Hnth & Hc)];
      [discriminate | rewrite Hc]
  end.
  eexists. split; [reflexivity|].
  apply nth_error_In in Hnth. unfold cooked_form.
  simpl in Hnth. destruct Hnth as [<-|[<-|[<-|[<-|[<-|[]]]]]];
    simpl; tauto.
Qed.

End Frames.

(* ------------------------------------------------------------------ *)
(** ** The refill: [_create_quantum_mix] *)

Section Refill.
Variable P : Platform.
Variable Q : string -> Prop.

Lemma grows_same_but_rng (self self' : t P) :
  same_but_rng self self' -> grows Q 0 self self'.
Proof.
  intros (Hc & Hb & Ha). repeat split; try assumption.
  exists []. rewrite app_nil_r. repeat split; [assumption | apply le_n | constructor].
Qed.

Lemma grows_trans (n m : nat) (a b c : t P) :
  grows Q n a b -> grows Q m b c -> grows Q (n + m) a c.
Proof.
  intros (Hc1 & Ha1 & l1 & Hb1 & Hl1 & Hq1) (Hc2 & Ha2 & l2 & Hb2 & Hl2 & Hq2).
  repeat split; try congruence.
  exists (l1 ++ l2). repeat split.
  - now rewrite Hb2, Hb1, app_assoc.
  - rewrite length_app. lia.
  - apply Forall_app. split; assumption.
Qed.

Lemma grows_weaken (n m : nat) (a b : t P) :
  (n <= m)%nat -> grows Q n a b -> grows Q m a b.
Proof.
  intros Hnm (Hc & Ha & l & Hb & Hl & Hq). repeat split; try assumption.
  exists l. repeat split; [assumption | lia | assumption].
Qed.

Lemma append_grows (s : string) (self : t P) :
  Q s ->
  exists self' : t P,
    append P s self = (Returns tt, self') /\ grows Q 1 self self'.
Proof.
  intros Hq. eexists. split; [reflexivity|]. repeat split.
  exists [s]. repeat split; [apply le_n | now constructor].
Qed.

(** A loop whose body always returns and appends at most [k] entries. *)
Lemma for_each_grows {A : Type} (k : nat) (l : list A) (body : A -> M P unit) :
  (forall (x : A) (self : t P),
     exists self' : t P,
       body x self = (Returns tt, self') /\ grows Q k self self') ->
  forall self : t P,
  exists self' : t P,
    for_each P l body self = (Returns tt, self') /\
    grows Q (k * List.length l) self self'.
Proof.
  intros Hbody. induction l as [|x l IH]; intros self.
  - exists self. split; [reflexivity|].
    rewrite Nat.mul_0_r. apply grows_same_but_rng. repeat split.
  - destruct (Hbody x self) as (s1 & H1 & G1).
    destruct (IH s1) as (s2 & H2 & G2).
    exists s2. split.
    + cbn [for_each]. unfold bind. now rewrite H1.
    + simpl List.length. replace (k * S (List.length l))%nat
        with (k + k * List.length l)%nat by lia.
      eapply grows_trans; eassumption.
Qed.

End Refill.

Section RefillBody.
Variable P : Platform.

(** One attempt of the inner loop: it always returns, and appends either
    nothing or one entry cooked from a memorable sample. *)
Lemma attempt_grows (pool : list string) (mix_length : nat) (self : t P) :
  (mix_length = 2 \/ mix_length = 3)%nat ->
  exists self' : t P,
    except_ValueError P
      (bind P (sample P pool mix_length)
         (fun combo =>
            if _is_memorable combo
            then bind P (_cook_combo P combo) (fun cooked => append P cooked)
            else ret P tt)) self = (Returns tt, self') /\
    grows (cooked_from_pool P pool) 1 self self'.
Proof.
  intros Hk.
  destruct (sample_outcome P pool mix_length self)
    as (s1 & Hs1 & [(combo & Hsample & Hlen & Hincl) | Hsample]);
    unfold except_ValueError, bind; rewrite Hsample.
  - destruct (_is_memorable combo) eqn:Hmem.
    + destruct (cook_combo_outcome P combo s1) as (cooked & Hcook & Hform).
      rewrite Hcook.
      destruct (append_grows P (cooked_from_pool P pool) cooked (advance s1))
        as (s2 & Happ & G).
      { exists combo. repeat split; try assumption. now rewrite Hlen. }
      rewrite Happ. exists s2. split; [reflexivity|].
      change 1%nat with (0 + 1)%nat. eapply grows_trans; [|exact G].
      apply grows_same_but_rng.
      eapply same_but_rng_trans; [exact Hs1 | apply same_but_rng_advance].
    + exists s1. split; [reflexivity|].
      eapply grows_weaken; [|apply grows_same_but_rng; exact Hs1]. lia.
  - exists s1. split; [reflexivity|].
    eapply grows_weaken; [|apply grows_same_but_rng; exact Hs1]. lia.
Qed.

Lemma attempts_grow (pool : list string) (mix_length : nat) (self : t P) :
  (mix_length = 2 \/ mix_length = 3)%nat ->
  exists self' : t P,
    for_each P (range 0 (5 * mix_length))
      (fun _ : nat =>
         except_ValueError P
           (bind P (sample P pool mix_length)
              (fun combo =>
                 if _is_memorable combo
                 then bind P (_cook_combo P combo) (fun cooked => append P cooked)
                 else ret P tt))) self = (Returns tt, self') /\
    grows (cooked_from_pool P pool) (5 * mix_length) self self'.
Proof.
  intros Hk.
  destruct (for_each_grows P (cooked_from_pool P pool) 1
              (range 0 (5 * mix_length))
              (fun _ : nat =>
                 except_ValueError P
                   (bind P (sample P pool mix_length)
                      (fun combo =>
                         if _is_memorable combo
                         then bind P (_cook_combo P combo)
                                   (fun cooked => append P cooked)
                         else ret P tt)))
              (fun _ s => attempt_grows pool mix_length s Hk) self)
    as (s' & Hrun & G).
  exists s'. split; [exact Hrun|].
  eapply grows_weaken; [|exact G].
  unfold range. rewrite length_seq. lia.
Qed.

Lemma create_quantum_mix_grows (self : t P) :
  exists self' : t P,
    _create_quantum_mix P self = (Returns tt, self') /\
    grows (cooked_from_pool P (elements (components self))) 25 self self'.
Proof.
  unfold _create_quantum_mix, bind at 1, get.
  set (pool := elements (components self)).
  assert (Hr : range 2 (Nat.min MAX_COMPONENTS (List.length pool)) = [] \/
               range 2 (Nat.min MAX_COMPONENTS (List.length pool)) = [2%nat] \/
               range 2 (Nat.min MAX_COMPONENTS (List.length pool)) = [2%nat; 3%nat]).
  { unfold range, MAX_COMPONENTS.
    destruct (List.length pool) as [|[|[|[|n]]]]; simpl; auto. }
  destruct Hr as [-> | [-> | ->]]; cbn [for_each].
  - exists self. split; [reflexivity|].
    eapply grows_weaken; [|apply grows_same_but_rng, same_but_rng_refl]. lia.
  - destruct (attempts_grow pool 2 self) as (s1 & H1 & G1); [now left|].
    exists s1. split; [now rewrite (bind_returns P _ _ _ _ _ H1)|].
    eapply grows_weaken; [|exact G1]. lia.
  - destruct (attempts_grow pool 2 self) as (s1 & H1 & G1); [now left|].
    destruct (attempts_grow pool 3 s1) as (s2 & H2 & G2); [now right|].
    exists s2. split.
    { rewrite (bind_returns P _ _ _ _ _ H1).
      now rewrite (bind_returns P _ _ _ _ _ H2). }
    change 25%nat with (5 * 2 + 5 * 3)%nat.
    eapply grows_trans; eassumption.
Qed.

End RefillBody.

(** X1. [_create_quantum_mix] never raises.  It leaves the components and
    the optimizer alone, keeps the entries already in the buffer in front,
    and appends at most 25 entries (10 attempts of length 2 and 15 of
    length 3), each of them cooked from a memorable combination of two or
    three elements of the pool. *)
Theorem create_quantum_mix_appends_cooked_combos (P : Platform) (self : t P) :
  exists (self' : t P) (added : list string),
    _create_quantum_mix P self = (Returns tt, self') /\
    components self' = components self /\
    ai_optimizer self' = ai_optimizer self /\
    combo_brew self' = combo_brew self ++ added /\
    (List.length added <= 25)%nat /\
    Forall (cooked_from_pool P (elements (components self))) added.
Proof.
  destruct (create_quantum_mix_grows P self)
    as (self' & Hrun & Hc & Ha & added & Hb & Hl & Hq).
  exists self', added. repeat split; assumption.
Qed.

Lemma words_have_kind_word (items : list string) (x : string) :
  In x (words (_organize_ingredients items)) -> _get_type x = word.
Proof.
  intros H. apply in_words in H. destruct H as [_ H]. unfold _get_type.
  now rewrite (isalpha_not_isdigit x H), (isalpha_isalnum x H).
Qed.

Lemma numbers_have_kind_num (items : list string) (x : string) :
  In x (numbers (_organize_ingredients items)) -> _get_type x = num.
Proof.
  intros H. apply in_numbers in H. destruct H as [_ H]. unfold _get_type.
  now rewrite H.
Qed.

Lemma specials_have_kind_spec (items : list string) (x : string) :
  In x (specials (_organize_ingredients items)) -> _get_type x = spec.
Proof.
  intros H. apply in_specials in H. destruct H as [_ H]. unfold _get_type.
  destruct (PyStr.isdigit x) eqn:E.
  - apply isdigit_isalnum in E. congruence.
  - now rewrite H.
Qed.

(** X2. On the element pool, the type [_get_type] gives an element and the
    list [_organize_ingredients] put it in agree: words are [word], numbers
    are [num], specials are [spec].  The converse fails for [word]: "a1"
    has type [word] and is in no list. *)
Theorem get_type_agrees_with_partition :
  (forall (items : list string) (x : string),
     In x (elements (_organize_ingredients items)) ->
     (In x (words (_organize_ingredients items)) /\ _get_type x = word) \/
     (In x (numbers (_organize_ingredients items)) /\ _get_type x = num) \/
     (In x (specials (_organize_ingredients items)) /\ _get_type x = spec)) /\
  _get_type "a1" = word /\
  elements (_organize_ingredients ["a1"]) = [].
Proof.
  split; [|split; reflexivity].
  intros items x H. unfold elements in H.
  rewrite !in_app_iff in H. destruct H as [[H | H] | [H | H]].
  - left. split; [exact H | now apply words_have_kind_word in H].
  - left. split; [exact H | now apply words_have_kind_word in H].
  - right; left. split; [exact H | now apply numbers_have_kind_num in H].
  - right; right. split; [exact H | now apply specials_have_kind_spec in H].
Qed.

Lemma same_kind_not_memorable (combo : list string) (kd : kind) :
  (2 <= List.length combo)%nat ->
  (forall x, In x combo -> _get_type x = kd) ->
  _is_memorable combo = false.
Proof.
  intros Hlen Hk. apply is_memorable_false.
  destruct combo as [|a [|b combo]]; simpl in Hlen; try lia.
  exists 0%nat, a, b. repeat split.
  rewrite (Hk a), (Hk b); simpl; auto.
Qed.

Lemma single_kind_pool_stays_empty (P : Platform) (self : t P) (kd : kind) :
  (forall x, In x (elements (components self)) -> _get_type x = kd) ->
  exists self' : t P,
    _create_quantum_mix P self = (Returns tt, self') /\
    combo_brew self' = combo_brew self.
Proof.
  intros Hk.
  destruct (create_quantum_mix_grows P self)
    as (self' & Hrun & _ & _ & added & Hb & _ & Hq).
  exists self'. split; [exact Hrun|].
  destruct added as [|e added]; [now rewrite app_nil_r in Hb|].
  apply Forall_inv in Hq. destruct Hq as (combo & Hlen & Hincl & Hmem & _).
  rewrite (same_kind_not_memorable combo kd) in Hmem; [discriminate | lia |].
  intros x Hx. apply Hk, Hincl, Hx.
Qed.

Lemma single_category_single_kind (items : list string) :
  (numbers (_organize_ingredients items) = [] /\
   specials (_organize_ingredients items) = []) \/
  (words (_organize_ingredients items) = [] /\
   specials (_organize_ingredients items) = []) \/
  (words (_organize_ingredients items) = [] /\
   numbers (_organize_ingredients items) = []) ->
  exists kd : kind,
    forall x, In x (elements (_organize_ingredients items)) -> _get_type x = kd.
Proof.
  unfold elements. intros [[Hn Hs] | [[Hw Hs] | [Hw Hn]]].
  - exists word. intros x. rewrite Hn, Hs, !in_app_iff. simpl.
    intros [[H | H] | [[] | []]]; now apply words_have_kind_word in H.
  - exists num. intros x. rewrite Hw, Hs, !in_app_iff. simpl.
    intros [[[] | []] | [H | []]]. now apply numbers_have_kind_num in H.
  - exists spec. intros x. rewrite Hw, Hn, !in_app_iff. simpl.
    intros [[[] | []] | [[] | H]]. now apply specials_have_kind_spec in H.
Qed.

(** X3. When at most one of the three categories is non-empty, the pool
    holds elements of one type only, no sample is memorable, the refill
    appends nothing, and [bake_password] on the freshly built chef raises
    the [IndexError] of [popleft], whatever the random draws are and
    however large the category is. *)
Theorem bake_password_single_category_raises
        (P : Platform) (ingredients : list string) (self : t P) (fuel : nat) :
  QuantumChef.__init__ P ingredients = Ok self ->
  (numbers (_organize_ingredients ingredients) = [] /\
   specials (_organize_ingredients ingredients) = []) \/
  (words (_organize_ingredients ingredients) = [] /\
   specials (_organize_ingredients ingredients) = []) \/
  (words (_organize_ingredients ingredients) = [] /\
   numbers (_organize_ingredients ingredients) = []) ->
  exists self' : t P,
    bake_password P fuel self = (Raises IndexError, self') /\
    combo_brew self' = [].
Proof.
  intros Hinit Hcat. destruct (init_components P _ _ Hinit) as [Hc Hb].
  destruct (single_category_single_kind ingredients Hcat) as [kd Hk].
  rewrite <- Hc in Hk.
  destruct (single_kind_pool_stays_empty P self kd Hk) as (self' & Hrun & Hb').
  exists self'. rewrite Hb in Hb'. split; [|exact Hb'].
  now apply bake_password_empty_after_refill.
Qed.

Lemma bake_password_single_category_raises_witness :
  exists self self' : t sample_platform,
    QuantumChef.__init__ sample_platform ["cat"; "dog"; "owl"] = Ok self /\
    elements (components self) = ["cat"; "dog"; "owl"; "cat"; "dog"; "owl"] /\
    bake_password sample_platform 10 self = (Raises IndexError, self') /\
    combo_brew self' = [].
Proof.
  assert (Hinit : QuantumChef.__init__ sample_platform ["cat"; "dog"; "owl"]
                  = Ok {| components := _organize_ingredients ["cat"; "dog"; "owl"];
                          combo_brew := [];
                          ai_optimizer :=
                            AIPasswordOptimizer.Build_t sample_platform
                              ["cat"; "dog"; "owl"] (Some tt) (Some tt);
                          rng := 0 |}) by reflexivity.
  destruct (bake_password_single_category_raises sample_platform _ _ 10 Hinit)
    as (self' & Hrun & Hb).
  - left. split; reflexivity.
  - eexists. exists self'. split; [exact Hinit|].
    split; [reflexivity|]. split; [exact Hrun | exact Hb].
Defined.

(* ------------------------------------------------------------------ *)
(** ** The augmentation: [_add_quantum_spice] *)

Lemma str_app_nil_r (s : string) : (s ++ "")%string = s.
Proof. induction s as [|c s IH]; simpl; [reflexivity | now rewrite IH]. Qed.

Lemma str_app_assoc (a b c : string) :
  ((a ++ b) ++ c)%string = (a ++ b ++ c)%string.
Proof. induction a as [|x a IH]; simpl; [reflexivity | now rewrite IH]. Qed.

Lemma lower_app (a b : string) :
  PyStr.lower (a ++ b) = (PyStr.lower a ++ PyStr.lower b)%string.
Proof. induction a as [|x a IH]; simpl; [reflexivity | now rewrite IH]. Qed.

Lemma occurs_in_affix (p s a b : string) :
  occurs_in p s -> occurs_in p (a ++ s ++ b).
Proof.
  intros (pre & post & ->). exists (a ++ pre)%string, (post ++ b)%string.
  now rewrite !str_app_assoc.
Qed.

(** A weak substring survives whatever is put before and after it. *)
Lemma is_common_pattern_affix (s a b : string) :
  is_common_pattern s = true -> is_common_pattern (a ++ s ++ b) = true.
Proof.
  unfold is_common_pattern. rewrite !existsb_exists.
  intros (p & Hin & H). exists p. split; [exact Hin|].
  apply contains_spec. rewrite !lower_app.
  apply occurs_in_affix. now apply contains_spec.
Qed.

Lemma substring_whole (s : string) : String.substring 0 (String.length s) s = s.
Proof. induction s as [|c s IH]; simpl; [reflexivity | now rewrite IH]. Qed.

(** [s[:k] + s[k:]] is [s], for every [k]. *)
Lemma take_drop (k : nat) (s : string) :
  (PyStr.take k s ++ PyStr.drop k s)%string = s.
Proof.
  unfold PyStr.take, PyStr.drop, PyStr.len. revert k.
  induction s as [|c s IH]; intros k.
  - destruct k; reflexivity.
  - destruct k as [|k].
    + rewrite Nat.sub_0_r. cbn [String.substring String.append].
      apply (substring_whole (String c s)).
    + cbn [String.substring String.length Nat.sub String.append].
      now rewrite IH.
Qed.

Section Spice.
Variable P : Platform.

(** The four enhancements, by the position the draw selects. *)
Lemma add_quantum_spice_by_draw (password : string) (self : t P) :
  _add_quantum_spice P password self =
  match (entropy P (rng self) mod 4)%nat with
  | 0%nat =>
      bind P (choice P (numbers (components self)))
           (fun n => ret P (password ++ n)%string) (advance self)
  | 1%nat =>
      bind P (choice P ["!"; "@"; "#"])
           (fun c => ret P (c ++ password)%string) (advance self)
  | 2%nat =>
      bind P (choice P ["-"; "_"; "~"])
           (fun c => ret P (PyStr.take (PyStr.len password / 2) password ++ c
                            ++ PyStr.drop (PyStr.len password / 2) password)%string)
           (advance self)
  | _ => (Returns password, advance self)
  end.
Proof.
  unfold _add_quantum_spice, bind at 1, get. cbv zeta.
  unfold bind at 1.
  match goal with
  | |- context [choice P ?seq self] =>
      destruct (choice_outcome P seq self) as [[Hnil _] | (f & Hnth & Hc)];
      [discriminate | rewrite Hc]
  end.
  cbn [List.length] in Hnth.
  pose proof (Nat.mod_upper_bound (entropy P (rng self)) 4) as Hlt.
  destruct (entropy P (rng self) mod 4)%nat as [|[|[|[|n]]]];
    cbn [nth_error] in Hnth; try (injection Hnth as <-; reflexivity).
  lia.
Qed.

Lemma add_quantum_spice_cases (password : string) (self : t P) :
  exists self' : t P,
    same_but_rng self self' /\
    ((exists a b ins : string,
        password = (a ++ b)%string /\
        In ins (numbers (components self)
                ++ ["!"; "@"; "#"; "-"; "_"; "~"; ""]) /\
        ((entropy P (rng self) mod 4 <> 2)%nat ->
         (a = "" /\ b = password) \/ (a = password /\ b = "")) /\
        _add_quantum_spice P password self
          = (Returns (a ++ ins ++ b)%string, self')) \/
     (numbers (components self) = [] /\
      (entropy P (rng self) mod 4 = 0)%nat /\
      _add_quantum_spice P password self = (Raises IndexError, self'))).
Proof.
  rewrite add_quantum_spice_by_draw.
  destruct (entropy P (rng self) mod 4)%nat as [|[|[|n]]] eqn:Hdraw.
  - destruct (choice_outcome P (numbers (components self)) (advance self))
      as [[Hnil Hc] | (x & Hnth & Hc)]; unfold bind; rewrite Hc.
    + exists (advance self). split; [apply same_but_rng_advance|].
      right. repeat split. exact Hnil.
    + exists (advance (advance self)). split; [repeat split|]. left.
      exists password, "", x. rewrite !str_app_nil_r. repeat split; auto.
      apply in_or_app. left. now apply nth_error_In in Hnth.
  - destruct (choice_outcome P ["!"; "@"; "#"] (advance self))
      as [[Hnil _] | (x & Hnth & Hc)]; [discriminate|].
    unfold bind; rewrite Hc.
    exists (advance (advance self)). split; [repeat split|]. left.
    exists "", password, x. repeat split; auto.
    apply in_or_app. right. apply nth_error_In in Hnth. simpl in *. tauto.
  - destruct (choice_outcome P ["-"; "_"; "~"] (advance self))
      as [[Hnil _] | (x & Hnth & Hc)]; [discriminate|].
    unfold bind; rewrite Hc.
    exists (advance (advance self)). split; [repeat split|]. left.
    exists (PyStr.take (PyStr.len password / 2) password),
           (PyStr.drop (PyStr.len password / 2) password), x.
    repeat split.
    + symmetry. apply take_drop.
    + apply in_or_app. right. apply nth_error_In in Hnth. simpl in *. tauto.
    + intros H. now elim H.
  - exists (advance self). split; [apply same_but_rng_advance|]. left.
    exists password, "", "". rewrite !str_app_nil_r. repeat split; auto.
    apply in_or_app. right. simpl. tauto.
Qed.

End Spice.

(** X4. [_add_quantum_spice] touches nothing but the draw counter.  When
    it returns, the result is the password with one token inserted
    somewhere (a number of the list, one of the six symbols, or nothing),
    no character removed or reordered.  It raises exactly when [numbers] is
    empty and the draw selects the first enhancement, and then the error
    is [IndexError]. *)
Theorem add_quantum_spice_inserts_or_raises
        (P : Platform) (password : string) (self : t P) :
  exists self' : t P,
    components self' = components self /\
    combo_brew self' = combo_brew self /\
    ai_optimizer self' = ai_optimizer self /\
    ((exists a b ins : string,
        password = (a ++ b)%string /\
        In ins (numbers (components self)
                ++ ["!"; "@"; "#"; "-"; "_"; "~"; ""]) /\
        _add_quantum_spice P password self
          = (Returns (a ++ ins ++ b)%string, self') /\
        ~ (numbers (components self) = [] /\
           (entropy P (rng self) mod 4 = 0)%nat)) \/
     (numbers (components self) = [] /\
      (entropy P (rng self) mod 4 = 0)%nat /\
      _add_quantum_spice P password self = (Raises IndexError, self'))).
Proof.
  destruct (add_quantum_spice_cases P password self)
    as (self' & (Hc & Hb & Ha) & Hcases).
  exists self'. repeat split; try assumption.
  destruct Hcases as [(a & b & ins & Hpw & Hins & _ & Hrun) | Hraise].
  - left. exists a, b, ins. repeat split; try assumption.
    intros [Hnil Hdraw].
    rewrite add_quantum_spice_by_draw, Hdraw in Hrun.
    destruct (choice_outcome P (numbers (components self)) (advance self))
      as [[_ Hch] | (x & Hnth & _)].
    + unfold bind in Hrun. rewrite Hch in Hrun. discriminate.
    + rewrite Hnil in Hnth. now destruct (entropy P (rng (advance self)) mod _)%nat.
  - right. exact Hraise.
Qed.

(** X5. Of the four enhancements only the separator inserted at the
    midpoint can repair a weak password: when [_add_quantum_spice] turns a
    password with a common pattern into one without, the draw selected the
    third enhancement. *)
Theorem add_quantum_spice_repairs_only_at_midpoint
        (P : Platform) (password password' : string) (self self' : t P) :
  is_common_pattern password = true ->
  _add_quantum_spice P password self = (Returns password', self') ->
  is_common_pattern password' = false ->
  (entropy P (rng self) mod 4 = 2)%nat.
Proof.
  intros Hweak Hrun Hstrong.
  destruct (Nat.eq_dec (entropy P (rng self) mod 4) 2) as [E|E]; [exact E|].
  exfalso.
  destruct (add_quantum_spice_cases P password self)
    as (s1 & _ & [(a & b & ins & _ & _ & Hab & Hrun1) | (_ & _ & Hrun1)]);
    rewrite Hrun in Hrun1; [|discriminate].
  injection Hrun1 as -> _.
  destruct (Hab E) as [[-> ->] | [-> ->]].
  - pose proof (is_common_pattern_affix password ins "" Hweak) as H.
    rewrite str_app_nil_r in H. simpl in Hstrong. congruence.
  - pose proof (is_common_pattern_affix password "" ins Hweak) as H.
    simpl in H. rewrite str_app_nil_r in Hstrong. congruence.
Qed.

Lemma add_quantum_spice_repairs_only_at_midpoint_witness :
  is_common_pattern "abc1" = true /\
  is_common_pattern "ab-c1" = false /\
  (entropy sample_platform 2 mod 4 = 2)%nat.
Proof.
  split; [reflexivity|]. split; [reflexivity|].
  apply (add_quantum_spice_repairs_only_at_midpoint sample_platform
           "abc1" "ab-c1"
           {| components := _organize_ingredients ["abc"; "1"];
              combo_brew := [];
              ai_optimizer :=
                AIPasswordOptimizer.Build_t sample_platform ["abc"; "1"]
                                            None None;
              rng := 2 |}
           (snd (_add_quantum_spice sample_platform "abc1"
                   {| components := _organize_ingredients ["abc"; "1"];
                      combo_brew := [];
                      ai_optimizer :=
                        AIPasswordOptimizer.Build_t sample_platform
                          ["abc"; "1"] None None;
                      rng := 2 |}))).
  - reflexivity.
  - apply pair_of_fst. vm_compute. reflexivity.
  - reflexivity.
Defined.

(* ------------------------------------------------------------------ *)
(** ** The repair loop and [bake_password] *)

Section Bake.
Variable P : Platform.

Lemma bind_inv {A B : Type} (m : M P A) (k : A -> M P B)
      (self self' : t P) (o : outcome B) :
  bind P m k self = (o, self') ->
  (exists (a : A) (s1 : t P), m self = (Returns a, s1) /\ k a s1 = (o, self')) \/
  (exists e : exn, m self = (Raises e, self') /\ o = Raises e) \/
  (m self = (OutOfFuel, self') /\ o = OutOfFuel).
Proof.
  unfold bind. destruct (m self) as [[a|e|] s1]; intros H.
  - left. now exists a, s1.
  - right; left. exists e. now injection H as <- <-.
  - right; right. now injection H as <- <-.
Qed.

Lemma add_quantum_spice_frame (password : string) (self : t P) :
  same_but_rng self (snd (_add_quantum_spice P password self)).
Proof.
  destruct (add_quantum_spice_cases P password self)
    as (s1 & Hs & [(a & b & ins & _ & _ & _ & ->) | (_ & _ & ->)]); exact Hs.
Qed.

Lemma repair_frame (fuel : nat) (password : string) (self : t P) :
  same_but_rng self (snd (repair P fuel password self)).
Proof.
  revert password self. induction fuel as [|fuel IH]; intros password self;
    cbn [repair]; destruct (is_common_pattern password);
    try apply same_but_rng_refl.
  pose proof (add_quantum_spice_frame password self) as Hs.
  unfold bind.
  destruct (_add_quantum_spice P password self) as [[pw|e|] s1];
    simpl in Hs |- *; try exact Hs.
  eapply same_but_rng_trans; [exact Hs | apply IH].
Qed.

Lemma repair_returns (fuel : nat) (password password' : string)
      (self self' : t P) :
  repair P fuel password self = (Returns password', self') ->
  is_common_pattern password' = false.
Proof.
  revert password self. induction fuel as [|fuel IH]; intros password self;
    cbn [repair]; destruct (is_common_pattern password) eqn:E;
    try discriminate; try (intros [= <- _]; exact E).
  intros H. apply bind_inv in H.
  destruct H as [(pw & s1 & _ & H) | [(e & _ & H) | (_ & H)]];
    try discriminate.
  eapply IH; exact H.
Qed.

Lemma choice_frame {A : Type} (seq : list A) (self : t P) :
  same_but_rng self (snd (choice P seq self)).
Proof.
  destruct (choice_outcome P seq self) as [[_ ->] | (x & _ & ->)];
    [apply same_but_rng_refl | apply same_but_rng_advance].
Qed.

Lemma ai_enhance_frame (fuel : nat) (password : string) (self : t P) :
  same_but_rng self (snd (_ai_enhance P fuel password self)).
Proof.
  unfold _ai_enhance, bind at 1, get. unfold bind at 1, lift.
  destruct (AIPasswordOptimizer.suggest_variations P (ai_optimizer self) password)
    as [variations|e]; [|apply same_but_rng_refl].
  cbn [ret]. unfold bind.
  destruct variations as [|v variations].
  - cbn [ret]. apply repair_frame.
  - pose proof (choice_frame (password :: v :: variations) self) as Hs.
    destruct (choice P (password :: v :: variations) self) as [[pw|e|] s1];
      simpl in Hs |- *; try exact Hs.
    eapply same_but_rng_trans; [exact Hs | apply repair_frame].
Qed.

Lemma ai_enhance_returns (fuel : nat) (password password' : string)
      (self self' : t P) :
  _ai_enhance P fuel password self = (Returns password', self') ->
  is_common_pattern password' = false.
Proof.
  unfold _ai_enhance, bind at 1, get. intros H.
  apply bind_inv in H.
  destruct H as [(vs & s1 & _ & H) | [(e & _ & H) | (_ & H)]];
    try discriminate.
  apply bind_inv in H.
  destruct H as [(pw & s2 & _ & H) | [(e & _ & H) | (_ & H)]];
    try discriminate.
  eapply repair_returns; exact H.
Qed.

End Bake.

Lemma bake_password_returns
      (P : Platform) (fuel : nat) (self self' : t P) (password : string) :
  bake_password P fuel self = (Returns password, self') ->
  is_common_pattern password = false.
Proof.
  unfold bake_password, bind at 1, get. intros H.
  apply (bind_inv P) in H.
  destruct H as [(u & s1 & _ & H) | [(e & _ & H) | (_ & H)]];
    try discriminate.
  apply (bind_inv P) in H.
  destruct H as [(base & s2 & _ & H) | [(e & _ & H) | (_ & H)]];
    try discriminate.
  apply (bind_inv P) in H.
  destruct H as [(enhanced & s3 & _ & H) | [(e & _ & H) | (_ & H)]];
    try discriminate.
  eapply ai_enhance_returns; exact H.
Qed.

(** X7. With a non-empty buffer [bake_password] does not refill: it takes
    the oldest entry, and whatever the outcome of the call (a password, an
    exception, no answer) the buffer afterwards is the old one without
    that entry, the components and the optimizer being unchanged. *)
Theorem bake_password_consumes_oldest_entry
        (P : Platform) (fuel : nat) (self : t P) (oldest : string)
        (rest : list string) :
  combo_brew self = oldest :: rest ->
  combo_brew (snd (bake_password P fuel self)) = rest /\
  components (snd (bake_password P fuel self)) = components self /\
  ai_optimizer (snd (bake_password P fuel self)) = ai_optimizer self.
Proof.
  intros Hbrew.
  assert (H : exists (o : outcome string) (s' : t P),
             bake_password P fuel self = (o, s') /\
             combo_brew s' = rest /\
             components s' = components self /\
             ai_optimizer s' = ai_optimizer self).
  { unfold bake_password, bind at 1, get. rewrite Hbrew.
    unfold bind at 1. cbn [ret]. unfold bind at 1, popleft. rewrite Hbrew.
    set (s1 := {| components := components self; combo_brew := rest;
                  ai_optimizer := ai_optimizer self; rng := rng self |}).
    pose proof (add_quantum_spice_frame P oldest s1) as (Hc2 & Hb2 & Ha2).
    unfold bind.
    destruct (_add_quantum_spice P oldest s1) as [[enhanced|e|] s2];
      cbn [fst snd components combo_brew ai_optimizer s1] in Hc2, Hb2, Ha2 |- *;
      try (eexists; eexists; repeat split; assumption).
    pose proof (ai_enhance_frame P fuel enhanced s2) as (Hc3 & Hb3 & Ha3).
    destruct (_ai_enhance P fuel enhanced s2) as [o s3].
    cbn [snd] in Hc3, Hb3, Ha3.
    exists o, s3. repeat split; congruence. }
  destruct H as (o & s' & -> & Hb & Hc & Ha). repeat split; assumption.
Qed.

Lemma bake_password_consumes_oldest_entry_witness :
  let self : t sample_platform :=
    {| components := _organize_ingredients ["cat"; "!"];
       combo_brew := ["cat!"; "!cat"];
       ai_optimizer :=
         AIPasswordOptimizer.Build_t sample_platform ["cat"; "!"] None None;
       rng := 0 |} in
  fst (bake_password sample_platform 5 self) = Raises IndexError /\
  combo_brew (snd (bake_password sample_platform 5 self)) = ["!cat"].
Proof.
  split; [vm_compute; reflexivity|].
  apply (bake_password_consumes_oldest_entry sample_platform 5 _ "cat!" ["!cat"]).
  reflexivity.
Defined.

Lemma repair_unchanged_forever (P : Platform) :
  (forall n : nat, (entropy P n mod 4 = 3)%nat) ->
  forall (fuel : nat) (password : string) (self : t P),
    is_common_pattern password = true ->
    fst (repair P fuel password self) = OutOfFuel.
Proof.
  intros Hdraw fuel password. induction fuel as [|fuel IH]; intros self Hweak;
    cbn [repair]; rewrite Hweak; [reflexivity|].
  unfold bind. rewrite add_quantum_spice_by_draw, Hdraw. now apply IH.
Qed.

(** X8. The repair loop of [_ai_enhance] has no bound of its own: when the
    advisor gives no variation and every draw selects the fourth
    enhancement (leave the password unchanged), a password with a common
    pattern is never repaired, and the call gives no answer within any
    number of rounds. *)
Theorem ai_enhance_can_loop_forever
        (P : Platform) (fuel : nat) (password : string) (self : t P) :
  (forall n : nat, (entropy P n mod 4 = 3)%nat) ->
  AIPasswordOptimizer.suggest_variations P (ai_optimizer self) password
    = Ok [] ->
  is_common_pattern password = true ->
  fst (_ai_enhance P fuel password self) = OutOfFuel.
Proof.
  intros Hdraw Hnone Hweak.
  unfold _ai_enhance, bind at 1, get. unfold bind at 1.
  rewrite Hnone. cbn [lift ret]. unfold bind. cbn [ret].
  now apply repair_unchanged_forever.
Qed.

Lemma ai_enhance_can_loop_forever_witness :
  let self : t constant_platform :=
    {| components := _organize_ingredients ["abc"; "123"; "!"];
       combo_brew := [];
       ai_optimizer :=
         AIPasswordOptimizer.Build_t constant_platform ["abc"; "123"; "!"]
                                     (Some tt) (Some tt);
       rng := 0 |} in
  QuantumChef.__init__ constant_platform ["abc"; "123"; "!"] = Ok self /\
  AIPasswordOptimizer.suggest_variations constant_platform (ai_optimizer self)
    "abc123" = Ok [] /\
  is_common_pattern "abc123" = true /\
  fst (_ai_enhance constant_platform 1000 "abc123" self) = OutOfFuel.
Proof.
  cbv zeta. split; [reflexivity|]. split; [reflexivity|].
  split; [reflexivity|].
  apply (ai_enhance_can_loop_forever constant_platform 1000 "abc123");
    [intros n; reflexivity | reflexivity | reflexivity].
Defined.

(* ------------------------------------------------------------------ *)
(** ** The acceptance threshold of [main_flow] *)

Lemma ratio_sum_above (a d : Q) :
  1 <= a -> 1 <= d -> (3 # 10) < a / inject_Z 15 + d / a.
Proof.
  intros Ha Hd.
  assert (Hpos : 0 < a) by lra.
  assert (Hinv : 0 < / a) by now apply Qinv_lt_0_compat.
  assert (Hone : a * / a == 1) by (apply Qmult_inv_r; lra).
  unfold Qdiv. change (/ inject_Z 15) with (1 # 15).
  assert (Hd' : / a <= d * / a).
  { rewrite <- (Qmult_1_l (/ a)) at 1.
    apply Qmult_le_compat_r; [exact Hd | lra]. }
  set (r := / a) in *. clearbody r.
  destruct (Qlt_le_dec 3 a) as [H3 | H3].
  - destruct (Qlt_le_dec a 10) as [H10 | H10].
    + assert (H : a * r < 10 * r)
        by (apply Qmult_lt_compat_r; assumption).
      set (ar := a * r) in *. set (dr := d * r) in *. clearbody ar dr. lra.
    + set (ar := a * r) in *. set (dr := d * r) in *. clearbody ar dr. lra.
  - assert (H : a * r <= 3 * r)
      by (apply Qmult_le_compat_r; [assumption | lra]).
    set (ar := a * r) in *. set (dr := d * r) in *. clearbody ar dr. lra.
Qed.

Lemma score_value_above_threshold (password : string) :
  password <> "" ->
  is_common_pattern password = false ->
  (6 # 10) < score_value password.
Proof.
  intros Hne Hstrong.
  unfold score_value. rewrite Hstrong.
  destruct (diversity_bounds password Hne) as [Hd0 _].
  pose proof (len_pos password Hne) as Hlen.
  pose proof (distinct_chars_pos password Hne) as Hdc.
  assert (Ha : 1 <= inject_Z (Z.of_nat (PyStr.len password))).
  { change 1 with (inject_Z 1). rewrite <- Zle_Qle. lia. }
  assert (Hd : 1 <= inject_Z (Z.of_nat (distinct_chars password))).
  { change 1 with (inject_Z 1). rewrite <- Zle_Qle. lia. }
  pose proof (ratio_sum_above _ _ Ha Hd) as Hsum.
  unfold py_min.
  set (a := inject_Z (Z.of_nat (PyStr.len password))) in *.
  set (d := inject_Z (Z.of_nat (distinct_chars password)) / a) in *.
  set (l := a / inject_Z 15) in *. clearbody l d.
  destruct (Qle_bool l 1);
    destruct (existsb PyChar.isupper (PyStr.chars password)),
      (existsb (fun c => negb (PyChar.isalnum c)) (PyStr.chars password));
    lra.
Qed.

(** X9. Every non-empty password without a common pattern scores above
    0.6: the pattern bonus gives 0.3, and length/15 + distinct/length is
    above 0.3 for every length.  So the test
    [calculate_complexity(pwd) > 0.6] of [main_flow] accepts every
    non-empty password that [bake_password] returns. *)
Theorem calculate_complexity_above_threshold (password : string) :
  password <> "" ->
  is_common_pattern password = false ->
  exists q : Q, calculate_complexity password = Ok q /\ 6 / 10 < q.
Proof.
  intros Hne Hstrong. exists (score_value password).
  split; [now apply calculate_complexity_nonempty|].
  now apply score_value_above_threshold.
Qed.

Lemma calculate_complexity_above_threshold_witness :
  "a" <> "" /\ is_common_pattern "a" = false /\
  exists q : Q, calculate_complexity "a" = Ok q /\ 6 / 10 < q.
Proof.
  assert (H : "a" <> "") by discriminate.
  split; [exact H|]. split; [reflexivity|].
  apply (calculate_complexity_above_threshold "a" H). reflexivity.
Defined.

(* ------------------------------------------------------------------ *)
(** ** The generation loop *)

Lemma above_threshold_true (q : Q) : above_threshold q = true -> 6 / 10 < q.
Proof.
  unfold above_threshold. rewrite negb_true_iff. intros H.
  apply Qnot_le_lt. intros Hle. apply Qle_bool_iff in Hle.
  change (6 / 10) with (6 # 10) in Hle. congruence.
Qed.

Lemma above_threshold_of_lt (q : Q) : (6 # 10) < q -> above_threshold q = true.
Proof.
  intros H. unfold above_threshold. apply negb_true_iff.
  destruct (Qle_bool q (6 # 10)) eqn:E; [|reflexivity].
  apply Qle_bool_iff in E. lra.
Qed.

Lemma lift_returns {P : Platform} {A : Type} (r : result A) (a : A)
      (self self' : t P) :
  lift P r self = (Returns a, self') -> r = Ok a /\ self' = self.
Proof. destruct r; simpl; intros [= <- <-]; auto. Qed.

(** One round of the loop, spelled out: the score test never discards a
    password. *)
Lemma generate_round (P : Platform) (rounds fuel total : nat)
      (passwords : list string) (self : t P) :
  (List.length passwords < total)%nat ->
  generate P (S rounds) fuel total passwords self =
  match bake_password P fuel self with
  | (Returns pwd, self') =>
      if (pwd =? "")%string then (Raises ZeroDivisionError, self')
      else generate P rounds fuel total (passwords ++ [pwd]) self'
  | (Raises e, self') => (Raises e, self')
  | (OutOfFuel, self') => (OutOfFuel, self')
  end.
Proof.
  intros Hlt. cbn [generate].
  destruct (Nat.ltb_spec (List.length passwords) total) as [_|H]; [|lia].
  unfold bind at 1.
  destruct (bake_password P fuel self) as [[pwd|e|] s1] eqn:Hbake;
    try reflexivity.
  pose proof (bake_password_returns P fuel self s1 pwd Hbake) as Hstrong.
  destruct (String.eqb_spec pwd "") as [->|Hne].
  - reflexivity.
  - unfold bind. rewrite (calculate_complexity_nonempty pwd Hne). cbn [lift ret].
    now rewrite (above_threshold_of_lt _ (score_value_above_threshold pwd Hne Hstrong)).
Qed.

Lemma generate_returns (P : Platform) (rounds fuel total : nat) :
  forall (acc passwords : list string) (self self' : t P),
    (List.length acc <= total)%nat ->
    Forall accepted acc ->
    generate P rounds fuel total acc self = (Returns passwords, self') ->
    List.length passwords = total /\ Forall accepted passwords.
Proof.
  induction rounds as [|rounds IH]; intros acc passwords self self' Hlen Hacc.
  - cbn [generate].
    destruct (Nat.ltb_spec (List.length acc) total) as [H|H]; [discriminate|].
    intros [= <- _]. split; [lia | exact Hacc].
  - destruct (Nat.ltb_spec (List.length acc) total) as [Hlt|Hge].
    + rewrite (generate_round P rounds fuel total acc self Hlt).
      destruct (bake_password P fuel self) as [[pwd|e|] s1] eqn:Hbake;
        try discriminate.
      pose proof (bake_password_returns P fuel self s1 pwd Hbake) as Hstrong.
      destruct (String.eqb_spec pwd "") as [->|Hne]; [discriminate|].
      apply IH.
      * rewrite length_app. simpl. lia.
      * apply Forall_app. split; [exact Hacc|]. constructor; [|constructor].
        split; [exact Hstrong|]. exists (score_value pwd).
        split; [now apply calculate_complexity_nonempty|].
        now apply score_value_above_threshold.
    + cbn [generate].
      destruct (Nat.ltb_spec (List.length acc) total) as [H|_]; [lia|].
      intros [= <- _]. split; [lia | exact Hacc].
Qed.

Lemma clamp_count_range (response : Z) :
  (1 <= clamp_count response <= 1000)%Z.
Proof. unfold clamp_count. lia. Qed.

(** X6. A password that [bake_password] returns never contains one of the
    common patterns: the repair loop is left only when the test fails.
    Unless it is empty, [calculate_complexity] therefore gives it a score
    above 0.6. *)
Theorem bake_password_returns_no_common_pattern
        (P : Platform) (fuel : nat) (self self' : t P) (password : string) :
  bake_password P fuel self = (Returns password, self') ->
  is_common_pattern password = false /\
  (password <> "" -> accepted password).
Proof.
  intros Hrun.
  pose proof (bake_password_returns P fuel self self' password Hrun) as Hstrong.
  split; [exact Hstrong|].
  intros Hne. split; [exact Hstrong|].
  exists (score_value password).
  split; [now apply calculate_complexity_nonempty|].
  now apply score_value_above_threshold.
Qed.

Lemma bake_password_returns_no_common_pattern_witness :
  exists self : t sample_platform,
    QuantumChef.__init__ sample_platform ["abc"; "1"] = Ok self /\
    fst (bake_password sample_platform 10 self) = Returns "ab~c1" /\
    is_common_pattern "ab~c1" = false /\
    ("ab~c1" <> "" -> accepted "ab~c1").
Proof.
  exists {| components := _organize_ingredients ["abc"; "1"];
            combo_brew := [];
            ai_optimizer :=
              AIPasswordOptimizer.Build_t sample_platform ["abc"; "1"]
                                          (Some tt) (Some tt);
            rng := 0 |}.
  split; [reflexivity|].
  match goal with
  | |- fst (bake_password ?P ?f ?s) = _ /\ _ =>
      assert (Hfst : fst (bake_password P f s) = Returns "ab~c1")
        by (vm_compute; reflexivity)
  end.
  split; [exact Hfst|].
  exact (bake_password_returns_no_common_pattern _ _ _ _ _
           (pair_of_fst _ _ Hfst)).
Defined.

(** X11. The score test of the generation loop never discards a password.
    While passwords are missing, a round ends in one of these ways only:
    [bake_password] fails or gives no answer, and so does the loop; it
    returns the empty password, and [calculate_complexity] raises
    [ZeroDivisionError]; or it returns a non-empty password, which passes
    the test and is appended. *)
Theorem generation_round_never_discards
        (P : Platform) (rounds fuel total : nat) (passwords : list string)
        (self : t P) :
  (List.length passwords < total)%nat ->
  (exists (e : exn) (self' : t P),
     bake_password P fuel self = (Raises e, self') /\
     generate P (S rounds) fuel total passwords self = (Raises e, self')) \/
  (exists self' : t P,
     bake_password P fuel self = (OutOfFuel, self') /\
     generate P (S rounds) fuel total passwords self = (OutOfFuel, self')) \/
  (exists self' : t P,
     bake_password P fuel self = (Returns "", self') /\
     generate P (S rounds) fuel total passwords self
       = (Raises ZeroDivisionError, self')) \/
  (exists (pwd : string) (self' : t P),
     bake_password P fuel self = (Returns pwd, self') /\
     pwd <> "" /\ accepted pwd /\
     generate P (S rounds) fuel total passwords self
       = generate P rounds fuel total (passwords ++ [pwd]) self').
Proof.
  intros Hlt. rewrite (generate_round P rounds fuel total passwords self Hlt).
  destruct (bake_password P fuel self) as [[pwd|e|] s1] eqn:Hbake.
  - pose proof (bake_password_returns P fuel self s1 pwd Hbake) as Hstrong.
    destruct (String.eqb_spec pwd "") as [->|Hne].
    + right; right; left. exists s1. split; reflexivity.
    + right; right; right. exists pwd, s1. repeat split; try assumption.
      exists (score_value pwd).
      split; [now apply calculate_complexity_nonempty|].
      now apply score_value_above_threshold.
  - left. exists e, s1. split; reflexivity.
  - right; left. exists s1. split; reflexivity.
Qed.

Lemma generation_round_never_discards_witness :
  let self : t sample_platform :=
    {| components := _organize_ingredients [""; "7"; "1"];
       combo_brew := [];
       ai_optimizer :=
         AIPasswordOptimizer.Build_t sample_platform [""; "7"; "1"]
                                     (Some tt) (Some tt);
       rng := 0 |} in
  (List.length (@nil string) < 3)%nat /\
  fst (bake_password sample_platform 10 self) = Returns "" /\
  fst (generate sample_platform 1 10 3 [] self) = Raises ZeroDivisionError.
Proof.
  cbv zeta.
  assert (H : (List.length (@nil string) < 3)%nat) by (simpl; lia).
  split; [exact H|].
  match goal with
  | |- fst (bake_password ?P ?f ?s) = _ /\ _ =>
      assert (Hfst : fst (bake_password P f s) = Returns "")
        by (vm_compute; reflexivity);
      destruct (generation_round_never_discards P 0 f 3 [] s H)
        as [(e & s' & Hb & Hg) | [(s' & Hb & Hg) | [(s' & Hb & Hg)
            | (pwd & s' & Hb & Hne & _ & Hg)]]];
      rewrite Hb in Hfst; cbn [fst] in Hfst
  end.
  - discriminate Hfst.
  - discriminate Hfst.
  - split; [rewrite Hb; reflexivity | rewrite Hg; reflexivity].
  - injection Hfst as ->. elim Hne. reflexivity.
Defined.

(* ------------------------------------------------------------------ *)
(** ** The advisor and the constructors *)

Lemma py_index_In {A : Type} (l : list A) (i : Z) (x : A) :
  py_index l i = Ok x -> In x l.
Proof.
  unfold py_index.
  destruct ((_ <? 0)%Z || (_ <=? _)%Z); [discriminate|].
  destruct (nth_error l _) as [y|] eqn:E; [|discriminate].
  intros [= <-]. now apply nth_error_In in E.
Qed.

Lemma rmap_In {A B : Type} (f : A -> result B) (l : list A) (ys : list B) :
  rmap f l = Ok ys ->
  List.length ys = List.length l /\
  forall y, In y ys -> exists x, In x l /\ f x = Ok y.
Proof.
  revert ys. induction l as [|x l IH]; intros ys; cbn [rmap].
  - intros [= <-]. split; [reflexivity | intros y []].
  - destruct (f x) as [y0|e] eqn:Ef; [|discriminate]. cbn [rbind].
    destruct (rmap f l) as [ys0|e]; [|discriminate]. cbn [rbind].
    intros [= <-]. destruct (IH ys0 eq_refl) as [Hlen Hin].
    split; [simpl; now rewrite Hlen|].
    intros y [<- | Hy].
    + exists x. split; [left; reflexivity | exact Ef].
    + destruct (Hin y Hy) as (x' & Hx' & Hf). exists x'.
      split; [right; exact Hx' | exact Hf].
Qed.

Lemma rmap_not_ok {A B : Type} (f : A -> result B) (l : list A) (x : A)
      (e : exn) :
  In x l -> f x = Raise e -> forall ys, rmap f l <> Ok ys.
Proof.
  induction l as [|a l IH]; intros Hin Hf ys; [destruct Hin|].
  cbn [rmap]. destruct Hin as [-> | Hin].
  - rewrite Hf. discriminate.
  - destruct (f a); [|discriminate]. cbn [rbind].
    destruct (rmap f l) as [ys0|e0] eqn:E; [|discriminate].
    exfalso. exact (IH Hin Hf ys0 eq_refl).
Qed.

(** X13. Every variation [suggest_variations] returns is an entry of the
    dictionary the optimizer was built from; one index out of range in the
    row of neighbours makes the whole answer empty. *)
Theorem suggest_variations_are_dictionary_entries
        (P : Platform) (self : AIPasswordOptimizer.t P) (base_word : string)
        (variations : list string) :
  AIPasswordOptimizer.suggest_variations P self base_word = Ok variations ->
  (forall v, In v variations -> In v (AIPasswordOptimizer.dictionary self)) /\
  (forall (vec : Features P) (index : Index P) (row : list Z)
          (rows : list (list Z)),
     tfidf_transform P (AIPasswordOptimizer.vectorizer self) [base_word]
       = Ok vec ->
     AIPasswordOptimizer.nn self = Some index ->
     nn_kneighbors P index vec = Ok (row :: rows) ->
     (exists i, In i row /\
                py_index (AIPasswordOptimizer.dictionary self) i
                  = Raise IndexError) ->
     variations = []).
Proof.
  unfold AIPasswordOptimizer.suggest_variations, AIPasswordOptimizer.get_nn.
  intros H. split.
  - intros v Hv.
    destruct (tfidf_transform P _ _) as [vec|e];
      [|injection H as <-; destruct Hv].
    cbn [rbind] in H.
    destruct (AIPasswordOptimizer.nn self) as [index|];
      [|injection H as <-; destruct Hv].
    cbn [rbind] in H.
    destruct (nn_kneighbors P index vec) as [rows|e];
      [|injection H as <-; destruct Hv].
    cbn [rbind] in H.
    destruct (py_index rows 0) as [row|e]; [|injection H as <-; destruct Hv].
    cbn [rbind] in H.
    destruct (rmap (py_index (AIPasswordOptimizer.dictionary self)) row)
      as [vs|e] eqn:Hmap; [|injection H as <-; destruct Hv].
    injection H as <-.
    destruct (rmap_In _ _ _ Hmap) as [_ Hin].
    destruct (Hin v Hv) as (i & _ & Hi). now apply py_index_In in Hi.
  - intros vec index row rows Hvec Hnn Hk (i & Hi & Hbad).
    rewrite Hvec, Hnn in H. cbn [rbind] in H. rewrite Hk in H.
    cbn [rbind] in H. change (py_index (row :: rows) 0) with (Ok row) in H.
    cbn [rbind] in H.
    destruct (rmap (py_index (AIPasswordOptimizer.dictionary self)) row)
      as [vs|e] eqn:Hmap; [|now injection H as <-].
    exfalso. exact (rmap_not_ok _ _ _ _ Hi Hbad vs Hmap).
Qed.

Lemma suggest_variations_are_dictionary_entries_witness :
  let self := AIPasswordOptimizer.Build_t sample_platform
                ["cat"; "dog"; "owl"] (Some tt) (Some tt) in
  AIPasswordOptimizer.suggest_variations sample_platform self "cow"
    = Ok ["cat"; "dog"] /\
  forall v, In v ["cat"; "dog"] -> In v ["cat"; "dog"; "owl"].
Proof.
  cbv zeta.
  assert (H : AIPasswordOptimizer.suggest_variations sample_platform
                (AIPasswordOptimizer.Build_t sample_platform
                   ["cat"; "dog"; "owl"] (Some tt) (Some tt)) "cow"
              = Ok ["cat"; "dog"]) by reflexivity.
  split; [exact H|].
  apply (proj1 (suggest_variations_are_dictionary_entries
                  sample_platform _ "cow" _ H)).
Defined.

(** X14. Building a [QuantumChef] cannot fail for fewer than two
    ingredients, where no model is trained; the chef starts with an empty
    buffer and the classified ingredients.  With two or more ingredients it
    fails exactly when fitting the vectorizer or the neighbour index fails,
    and with that error: the constructor catches nothing. *)
Theorem chef_init_fails_iff_training_fails
        (P : Platform) (ingredients : list string) :
  ((List.length ingredients < 2)%nat ->
   exists chef : t P,
     QuantumChef.__init__ P ingredients = Ok chef /\
     combo_brew chef = [] /\
     components chef = _organize_ingredients ingredients /\
     AIPasswordOptimizer.nn (ai_optimizer chef) = None) /\
  (forall e : exn,
     QuantumChef.__init__ P ingredients = Raise e <->
     (2 <= List.length ingredients)%nat /\
     (tfidf_fit_transform P ingredients = Raise e \/
      exists (vocabulary : Vocabulary P) (features : Features P),
        tfidf_fit_transform P ingredients = Ok (vocabulary, features) /\
        nn_fit P features = Raise e)).
Proof.
  split.
  - intros Hlen. eexists. unfold QuantumChef.__init__.
    rewrite (init_small_dictionary P ingredients Hlen). cbn [rbind].
    repeat split.
  - intros e. unfold QuantumChef.__init__, AIPasswordOptimizer.__init__,
      AIPasswordOptimizer._train_similarity_model.
    cbn [AIPasswordOptimizer.dictionary].
    destruct (Nat.ltb_spec (List.length ingredients) 2) as [Hlt|Hge].
    + cbn [rbind]. split; [discriminate | intros [H _]; lia].
    + destruct (tfidf_fit_transform P ingredients) as [[v x]|e0].
      * cbn [rbind snd fst].
        destruct (nn_fit P x) as [i|e1] eqn:Hfit; cbn [rbind].
        -- split; [discriminate|].
           intros [_ [H | (v' & x' & [= <- <-] & H)]];
             [discriminate | congruence].
        -- split.
           ++ intros [= <-]. split; [exact Hge|]. right. now exists v, x.
           ++ intros [_ [H | (v' & x' & [= <- <-] & H)]];
                [discriminate | congruence].
      * cbn [rbind]. split.
        -- intros [= <-]. split; [exact Hge|]. now left.
        -- intros [_ [H | (v' & x' & H & _)]]; [congruence | discriminate].
Qed.

Lemma chef_init_fails_iff_training_fails_witness :
  (List.length ["cat"] < 2)%nat /\
  exists chef : t sample_platform,
    QuantumChef.__init__ sample_platform ["cat"] = Ok chef /\
    combo_brew chef = [] /\
    components chef = _organize_ingredients ["cat"] /\
    AIPasswordOptimizer.nn (ai_optimizer chef) = None.
Proof.
  assert (H : (List.length ["cat"] < 2)%nat) by (simpl; lia).
  split; [exact H|].
  apply (proj1 (chef_init_fails_iff_training_fails sample_platform ["cat"]) H).
Defined.

(* ------------------------------------------------------------------ *)
(** ** Further properties of the parts *)

(** X15. A common pattern survives whatever is written before and after
    the password: every string in which a weak password occurs as a
    contiguous part is weak too. *)
Theorem is_common_pattern_survives_affixes (password s : string) :
  is_common_pattern password = true ->
  occurs_in password s ->
  is_common_pattern s = true.
Proof.
  intros Hweak (before & after & ->).
  now apply is_common_pattern_affix.
Qed.

Lemma is_common_pattern_survives_affixes_witness :
  is_common_pattern "Admin" = true /\
  occurs_in "Admin" "#Admin42" /\
  is_common_pattern "#Admin42" = true.
Proof.
  assert (H : is_common_pattern "Admin" = true) by reflexivity.
  assert (Ho : occurs_in "Admin" "#Admin42") by (now exists "#", "42").
  split; [exact H|]. split; [exact Ho|].
  apply (is_common_pattern_survives_affixes "Admin" "#Admin42" H Ho).
Defined.

Lemma filter_all {A : Type} (p : A -> bool) (l : list A) :
  (forall x, In x l -> p x = true) -> filter p l = l.
Proof.
  induction l as [|x l IH]; intros H; simpl; [reflexivity|].
  rewrite (H x (or_introl eq_refl)), IH; [reflexivity|].
  intros y Hy. apply H. now right.
Qed.

Lemma filter_none {A : Type} (p : A -> bool) (l : list A) :
  (forall x, In x l -> p x = false) -> filter p l = [].
Proof.
  induction l as [|x l IH]; intros H; simpl; [reflexivity|].
  rewrite (H x (or_introl eq_refl)). apply IH.
  intros y Hy. apply H. now right.
Qed.

(** X16. Classifying the element pool gives the categories back: the pool
    of a classified list has the words (twice) as its words, the numbers as
    its numbers and the specials as its specials, so that classification
    loses nothing on lists it has produced. *)
Theorem organize_ingredients_of_pool (items : list string) :
  _organize_ingredients (elements (_organize_ingredients items)) =
  {| words := words (_organize_ingredients items)
              ++ words (_organize_ingredients items);
     numbers := numbers (_organize_ingredients items);
     specials := specials (_organize_ingredients items) |}.
Proof.
  set (c := _organize_ingredients items).
  assert (Hw : forall x, In x (words c) ->
                 PyStr.isalpha x = true /\ PyStr.isdigit x = false /\
                 PyStr.isalnum x = true).
  { intros x H. apply in_words in H. destruct H as [_ H].
    auto using isalpha_not_isdigit, isalpha_isalnum. }
  assert (Hn : forall x, In x (numbers c) ->
                 PyStr.isalpha x = false /\ PyStr.isdigit x = true /\
                 PyStr.isalnum x = true).
  { intros x H. apply in_numbers in H. destruct H as [_ H].
    repeat split; auto using isdigit_isalnum.
    destruct (PyStr.isalpha x) eqn:E; [|reflexivity].
    apply isalpha_not_isdigit in E. congruence. }
  assert (Hs : forall x, In x (specials c) ->
                 PyStr.isalpha x = false /\ PyStr.isdigit x = false /\
                 PyStr.isalnum x = false).
  { intros x H. apply in_specials in H. destruct H as [_ H].
    repeat split; auto.
    - destruct (PyStr.isalpha x) eqn:E; [|reflexivity].
      apply isalpha_isalnum in E. congruence.
    - destruct (PyStr.isdigit x) eqn:E; [|reflexivity].
      apply isdigit_isalnum in E. congruence. }
  unfold _organize_ingredients at 1, elements. rewrite !filter_app.
  f_equal.
  - rewrite (filter_all _ (words c)) by (intros x H; apply (Hw x H)).
    rewrite (filter_none _ (numbers c)) by (intros x H; apply (Hn x H)).
    rewrite (filter_none _ (specials c)) by (intros x H; apply (Hs x H)).
    now rewrite !app_nil_r.
  - rewrite (filter_none _ (words c)) by (intros x H; apply (Hw x H)).
    rewrite (filter_all _ (numbers c)) by (intros x H; apply (Hn x H)).
    rewrite (filter_none _ (specials c)) by (intros x H; apply (Hs x H)).
    simpl. now rewrite app_nil_r.
  - rewrite (filter_none _ (words c))
      by (intros x H; apply negb_false_iff, (Hw x H)).
    rewrite (filter_none _ (numbers c))
      by (intros x H; apply negb_false_iff, (Hn x H)).
    rewrite (filter_all _ (specials c))
      by (intros x H; apply negb_true_iff, (Hs x H)).
    reflexivity.
Qed.

(** X17. Without numbers among the ingredients, [bake_password] can fail
    even with candidates in the buffer: when the draw of the augmentation
    selects the first enhancement (append a number), the call raises
    [IndexError], and the candidate it had taken from the buffer is
    lost. *)
Theorem bake_password_without_numbers_raises
        (P : Platform) (fuel : nat) (self : t P) (oldest : string)
        (rest : list string) :
  combo_brew self = oldest :: rest ->
  numbers (components self) = [] ->
  (entropy P (rng self) mod 4 = 0)%nat ->
  fst (bake_password P fuel self) = Raises IndexError /\
  combo_brew (snd (bake_password P fuel self)) = rest.
Proof.
  intros Hbrew Hnum Hdraw.
  assert (H : exists s', bake_password P fuel self = (Raises IndexError, s') /\
                         combo_brew s' = rest).
  { unfold bake_password, bind at 1, get. rewrite Hbrew.
    unfold bind at 1. cbn [ret]. unfold bind at 1, popleft. rewrite Hbrew.
    unfold bind at 1. rewrite add_quantum_spice_by_draw.
    cbn [rng components]. rewrite Hdraw, Hnum.
    eexists. split; reflexivity. }
  destruct H as (s' & -> & Hb). split; [reflexivity | exact Hb].
Qed.

Lemma bake_password_without_numbers_raises_witness :
  let self : t sample_platform :=
    {| components := _organize_ingredients ["cat"; "!"];
       combo_brew := ["cat!"; "!cat"];
       ai_optimizer :=
         AIPasswordOptimizer.Build_t sample_platform ["cat"; "!"]
                                     (Some tt) (Some tt);
       rng := 8 |} in
  numbers (components self) = [] /\
  fst (bake_password sample_platform 5 self) = Raises IndexError /\
  combo_brew (snd (bake_password sample_platform 5 self)) = ["!cat"].
Proof.
  cbv zeta. split; [reflexivity|].
  apply (bake_password_without_numbers_raises sample_platform 5 _ "cat!"
           ["!cat"]); reflexivity.
Defined.

(* ------------------------------------------------------------------ *)
(** ** What makes [bake_password] fail *)

Section Failures.
Variable P : Platform.

Lemma suggest_variations_ok (self : AIPasswordOptimizer.t P) (w : string) :
  exists l : list string,
    AIPasswordOptimizer.suggest_variations P self w = Ok l.
Proof.
  unfold AIPasswordOptimizer.suggest_variations.
  match goal with
  | |- exists l, try_except ?b _ = _ => destruct b as [l|e]
  end; simpl; eauto.
Qed.

Lemma add_quantum_spice_raises (password : string) (self self' : t P)
      (e : exn) :
  _add_quantum_spice P password self = (Raises e, self') ->
  e = IndexError /\ numbers (components self) = [].
Proof.
  intros H.
  destruct (add_quantum_spice_cases P password self)
    as (s1 & _ & [(a & b & ins & _ & _ & _ & Hrun) | (Hnil & _ & Hrun)]);
    rewrite Hrun in H; [discriminate H|].
  injection H as <- _. split; [reflexivity | exact Hnil].
Qed.

Lemma repair_raises (fuel : nat) (password : string) (self self' : t P)
      (e : exn) :
  repair P fuel password self = (Raises e, self') ->
  e = IndexError /\ numbers (components self) = [].
Proof.
  revert password self. induction fuel as [|fuel IH]; intros password self;
    cbn [repair]; destruct (is_common_pattern password);
    try (intros H; discriminate H).
  intros H. apply bind_inv in H.
  destruct H as [(pw & s1 & Hspice & H) | [(e' & Hspice & [= ->]) | (_ & H)]].
  - destruct (IH _ _ H) as [He Hn]. split; [exact He|].
    pose proof (add_quantum_spice_frame P password self) as (Hc & _ & _).
    rewrite Hspice in Hc. cbn [snd] in Hc. now rewrite <- Hc.
  - now apply add_quantum_spice_raises in Hspice.
  - discriminate H.
Qed.

Lemma ai_enhance_raises (fuel : nat) (password : string) (self self' : t P)
      (e : exn) :
  _ai_enhance P fuel password self = (Raises e, self') ->
  e = IndexError /\ numbers (components self) = [].
Proof.
  unfold _ai_enhance, bind at 1, get. unfold bind at 1.
  destruct (suggest_variations_ok (ai_optimizer self) password) as [vs ->].
  cbn [lift ret]. intros H. apply bind_inv in H.
  destruct H as [(pw & s1 & Hch & H) | [(e' & Hch & [= ->]) | (_ & H)]].
  - destruct (repair_raises _ _ _ _ _ H) as [He Hn]. split; [exact He|].
    destruct vs as [|v vs].
    + injection Hch as _ <-. exact Hn.
    + pose proof (choice_frame P (password :: v :: vs) self) as (Hc & _ & _).
      rewrite Hch in Hc. cbn [snd] in Hc. now rewrite <- Hc.
  - destruct vs as [|v vs]; [discriminate Hch|].
    destruct (choice_outcome P (password :: v :: vs) self)
      as [[Hnil _] | (x & _ & Hx)]; [discriminate Hnil|].
    rewrite Hx in Hch. discriminate Hch.
  - discriminate H.
Qed.

(** After [popleft] has given an entry, only the augmentation can fail. *)
Lemma bake_tail_raises (fuel : nat) (self self' : t P) (e : exn) :
  bind P (popleft P)
       (fun base =>
          bind P (_add_quantum_spice P base)
               (fun enhanced => _ai_enhance P fuel enhanced)) self
    = (Raises e, self') ->
  e = IndexError /\
  ((combo_brew self = [] /\ self' = self) \/ numbers (components self) = []).
Proof.
  intros H. apply bind_inv in H.
  destruct H as [(base & s1 & Hpop & H) | [(e' & Hpop & [= ->]) | (_ & H)]].
  - assert (Hc1 : components s1 = components self).
    { unfold popleft in Hpop. destruct (combo_brew self); [discriminate Hpop|].
      now injection Hpop as _ <-. }
    apply bind_inv in H.
    destruct H as [(enh & s2 & Hsp & H) | [(e' & Hsp & [= ->]) | (_ & H)]].
    + destruct (ai_enhance_raises _ _ _ _ _ H) as [He Hn].
      split; [exact He|]. right.
      pose proof (add_quantum_spice_frame P base s1) as (Hc & _ & _).
      rewrite Hsp in Hc. cbn [snd] in Hc. congruence.
    + destruct (add_quantum_spice_raises _ _ _ _ Hsp) as [He Hn].
      split; [exact He|]. right. congruence.
    + discriminate H.
  - unfold popleft in Hpop. destruct (combo_brew self) eqn:Hb;
      [|discriminate Hpop].
    injection Hpop as <- <-. split; [reflexivity|]. left. split; reflexivity.
  - discriminate H.
Qed.

Lemma bake_password_raises (fuel : nat) (self self' : t P) (e : exn) :
  bake_password P fuel self = (Raises e, self') ->
  e = IndexError /\
  ((combo_brew self = [] /\
    _create_quantum_mix P self = (Returns tt, self') /\
    combo_brew self' = []) \/
   numbers (components self) = []).
Proof.
  unfold bake_password, bind at 1, get.
  destruct (combo_brew self) as [|b rest] eqn:Hbrew.
  - destruct (create_quantum_mix_grows P self) as (s1 & Hmix & Hc & _).
    rewrite (bind_returns P _ _ _ _ _ Hmix). intros H.
    destruct (bake_tail_raises fuel s1 self' e H) as [He [[Hb ->] | Hn]].
    + split; [exact He|]. left. repeat split; assumption.
    + split; [exact He|]. right. now rewrite <- Hc.
  - unfold bind at 1. cbn [ret]. intros H.
    destruct (bake_tail_raises fuel self self' e H) as [He [[Hb _] | Hn]].
    + congruence.
    + split; [exact He|]. now right.
Qed.

End Failures.

(** C1, as the code has it. [bake_password] fails with [IndexError] only,
    and only in two situations: the buffer, empty at the call, is still
    empty after the refill (the error of [popleft]), or the category
    [numbers] is empty (the error of the augmentation that appends a
    number).  In the other direction it does fail whenever the buffer is
    still empty after the refill, which on a freshly built chef happens
    for every ingredient list whose element pool (words twice, then
    numbers, then specials) has at most two entries: for the list with
    three empty categories, and for lists with a non-empty category
    alike. *)
Theorem bake_password_fails_only_on_empty_buffer_or_numbers (P : Platform) :
  (forall (self self' : t P) (fuel : nat) (e : exn),
     bake_password P fuel self = (Raises e, self') ->
     e = IndexError /\
     ((combo_brew self = [] /\
       _create_quantum_mix P self = (Returns tt, self') /\
       combo_brew self' = []) \/
      numbers (components self) = [])) /\
  (forall (self self' : t P) (fuel : nat),
     combo_brew self = [] ->
     _create_quantum_mix P self = (Returns tt, self') ->
     combo_brew self' = [] ->
     bake_password P fuel self = (Raises IndexError, self')) /\
  (forall (ingredients : list string) (self : t P) (fuel : nat),
     QuantumChef.__init__ P ingredients = Ok self ->
     (List.length (elements (_organize_ingredients ingredients)) <= 2)%nat ->
     bake_password P fuel self = (Raises IndexError, self)) /\
  (forall (ingredients : list string) (self : t P) (fuel : nat),
     QuantumChef.__init__ P ingredients = Ok self ->
     words (_organize_ingredients ingredients) = [] ->
     numbers (_organize_ingredients ingredients) = [] ->
     specials (_organize_ingredients ingredients) = [] ->
     bake_password P fuel self = (Raises IndexError, self)).
Proof.
  split; [|split; [|split]].
  - intros self self' fuel e. apply bake_password_raises.
  - intros self self' fuel. apply bake_password_empty_after_refill.
  - intros ingredients self fuel Hinit Hlen.
    destruct (init_components P _ _ Hinit) as [Hc Hb].
    apply bake_password_small_pool; [exact Hb | now rewrite Hc].
  - intros ingredients self fuel Hinit Hw Hn Hs.
    destruct (init_components P _ _ Hinit) as [Hc Hb].
    apply bake_password_small_pool; [exact Hb|].
    rewrite Hc. unfold elements. rewrite Hw, Hn, Hs. simpl. lia.
Qed.

Lemma bake_password_fails_only_on_empty_buffer_or_numbers_witness :
  let self : t sample_platform :=
    {| components := _organize_ingredients ["cat"; "!"];
       combo_brew := ["cat!"; "!cat"];
       ai_optimizer :=
         AIPasswordOptimizer.Build_t sample_platform ["cat"; "!"]
                                     (Some tt) (Some tt);
       rng := 8 |} in
  fst (bake_password sample_platform 5 self) = Raises IndexError /\
  combo_brew self <> [] /\
  numbers (components self) = [].
Proof.
  cbv zeta.
  match goal with
  | |- fst (bake_password ?P ?f ?s) = _ /\ _ =>
      assert (Hfst : fst (bake_password P f s) = Raises IndexError)
        by (vm_compute; reflexivity);
      destruct (proj1 (bake_password_fails_only_on_empty_buffer_or_numbers P)
                      s _ f _ (pair_of_fst _ _ Hfst))
        as [_ [[Hb _] | Hn]]
  end.
  - discriminate Hb.
  - split; [exact Hfst|]. split; [discriminate | exact Hn].
Defined.

(* ------------------------------------------------------------------ *)
(** ** The run of [main_flow] *)

Lemma option_eq_dec_zero (interrupt : option nat) :
  {interrupt = Some 0%nat} + {interrupt <> Some 0%nat}.
Proof. destruct interrupt as [[|k]|]; [left | right | right]; congruence. Qed.

Lemma try_generate_round (P : Platform) (interrupt : option nat)
      (rounds fuel total : nat) (passwords : list string) (self : t P) :
  interrupt <> Some 0%nat ->
  (List.length passwords < total)%nat ->
  try_generate P interrupt (S rounds) fuel total passwords self =
  match bake_password P fuel self with
  | (Returns pwd, self') =>
      if (pwd =? "")%string then (Raises ZeroDivisionError, self')
      else try_generate P (tick interrupt) rounds fuel total
                        (passwords ++ [pwd]) self'
  | (Raises e, self') => (Raises e, self')
  | (OutOfFuel, self') => (OutOfFuel, self')
  end.
Proof.
  intros Hint Hlt.
  assert (Hstep :
    try_generate P interrupt (S rounds) fuel total passwords self =
    bind P (bake_password P fuel) (fun pwd =>
    bind P (lift P (calculate_complexity pwd)) (fun score =>
      if above_threshold score
      then try_generate P (tick interrupt) rounds fuel total (passwords ++ [pwd])
      else try_generate P (tick interrupt) rounds fuel total passwords)) self).
  { cbn [try_generate].
    destruct (Nat.ltb_spec (List.length passwords) total) as [_|H]; [|lia].
    destruct interrupt as [[|k]|]; [now elim Hint | reflexivity | reflexivity]. }
  rewrite Hstep. clear Hstep. unfold bind at 1.
  destruct (bake_password P fuel self) as [[pwd|e|] s1] eqn:Hbake;
    try reflexivity.
  pose proof (bake_password_returns P fuel self s1 pwd Hbake) as Hstrong.
  destruct (String.eqb_spec pwd "") as [->|Hne].
  - reflexivity.
  - unfold bind. rewrite (calculate_complexity_nonempty pwd Hne). cbn [lift ret].
    now rewrite (above_threshold_of_lt _ (score_value_above_threshold pwd Hne Hstrong)).
Qed.

Lemma try_generate_interrupted (P : Platform) (rounds fuel total : nat)
      (passwords : list string) (self : t P) :
  try_generate P (Some 0%nat) rounds fuel total passwords self
    = (Returns passwords, self).
Proof. destruct rounds; reflexivity. Qed.

Lemma try_generate_complete (P : Platform) (interrupt : option nat)
      (rounds fuel total : nat) (passwords : list string) (self : t P) :
  (total <= List.length passwords)%nat ->
  try_generate P interrupt rounds fuel total passwords self
    = (Returns passwords, self).
Proof.
  intros Hge.
  destruct rounds; cbn [try_generate];
    destruct (Nat.ltb_spec (List.length passwords) total) as [H|_];
    try lia; destruct interrupt as [[|k]|]; reflexivity.
Qed.

Lemma try_generate_returns (P : Platform) (fuel total : nat) :
  forall (rounds : nat) (interrupt : option nat) (acc passwords : list string)
         (self self' : t P),
    (List.length acc <= total)%nat ->
    Forall accepted acc ->
    try_generate P interrupt rounds fuel total acc self
      = (Returns passwords, self') ->
    (List.length passwords <= total)%nat /\
    Forall accepted passwords /\
    (interrupt = None -> List.length passwords = total).
Proof.
  induction rounds as [|rounds IH];
    intros interrupt acc passwords self self' Hlen Hacc Hrun.
  - destruct (Nat.ltb_spec (List.length acc) total) as [Hlt|Hge].
    + destruct interrupt as [[|k]|]; cbn [try_generate] in Hrun;
        destruct (Nat.ltb_spec (List.length acc) total) as [_|H];
        try lia; try discriminate Hrun.
      injection Hrun as <- _. repeat split; try assumption. discriminate.
    + rewrite try_generate_complete in Hrun by exact Hge.
      injection Hrun as <- _. repeat split; try assumption. intros _. lia.
  - destruct (Nat.ltb_spec (List.length acc) total) as [Hlt|Hge].
    + destruct (option_eq_dec_zero interrupt) as [-> | Hint].
      * rewrite try_generate_interrupted in Hrun. injection Hrun as <- _.
        repeat split; try assumption. discriminate.
      * rewrite (try_generate_round P interrupt rounds fuel total acc self
                                    Hint Hlt) in Hrun.
        destruct (bake_password P fuel self) as [[pwd|e|] s1] eqn:Hbake;
          try discriminate Hrun.
        pose proof (bake_password_returns P fuel self s1 pwd Hbake) as Hstrong.
        destruct (String.eqb_spec pwd "") as [->|Hne]; [discriminate Hrun|].
        destruct (IH (tick interrupt) (acc ++ [pwd]) passwords s1 self')
          as (Hle & Hall & Hexact); [| |exact Hrun|].
        -- rewrite length_app. simpl. lia.
        -- apply Forall_app. split; [exact Hacc|]. constructor; [|constructor].
           split; [exact Hstrong|]. exists (score_value pwd).
           split; [now apply calculate_complexity_nonempty|].
           now apply score_value_above_threshold.
        -- repeat split; try assumption. intros ->. now apply Hexact.
    + rewrite try_generate_complete in Hrun by exact Hge.
      injection Hrun as <- _. repeat split; try assumption. intros _. lia.
Qed.

(** X10. When [main_flow] gets as far as writing the list, every password
    in it is free of common patterns and scored above 0.6, and the list
    holds at most the requested count clamped to 1..1000: exactly that
    many when the loop ran to its end, possibly fewer (down to none) when
    it was left by [KeyboardInterrupt]. *)
Theorem main_flow_writes_accepted_passwords
        (P : Platform) (interrupt : option nat) (rounds fuel : nat)
        (ingredients : list string) (response : Z) (passwords : list string) :
  main_flow P interrupt rounds fuel ingredients response = Written passwords ->
  (Z.of_nat (List.length passwords) <= Z.min 1000 (Z.max 1 response))%Z /\
  (interrupt = None ->
   Z.of_nat (List.length passwords) = Z.min 1000 (Z.max 1 response)) /\
  (List.length passwords <= 1000)%nat /\
  Forall accepted passwords /\
  ingredients <> [].
Proof.
  unfold main_flow. destruct ingredients as [|x rest]; [discriminate|].
  cbv zeta.
  destruct (QuantumChef.__init__ P (x :: rest)) as [chef|e]; [|discriminate].
  destruct (try_generate P interrupt rounds fuel
              (Z.to_nat (clamp_count response)) [] chef) as [o s'] eqn:Hgen.
  cbn [fst]. destruct o as [l|e|]; try discriminate. intros [= ->].
  pose proof (clamp_count_range response) as Hrange.
  destruct (try_generate_returns P fuel (Z.to_nat (clamp_count response))
              rounds interrupt [] passwords chef s')
    as (Hle & Hacc & Hexact); [simpl; lia | constructor | exact Hgen |].
  fold (clamp_count response). repeat split; try exact Hacc; try lia.
  - intros Hnone. rewrite (Hexact Hnone). lia.
  - discriminate.
Qed.

Lemma main_flow_writes_accepted_passwords_witness :
  main_flow sample_platform None 5 10 ["quantum"; "7"; "!"; "forest"; "42"] 2
    = Written ["quantum"; "42-quantum"] /\
  main_flow sample_platform (Some 1%nat) 5 10
            ["quantum"; "7"; "!"; "forest"; "42"] 2
    = Written ["quantum"] /\
  Forall accepted ["quantum"; "42-quantum"] /\
  (Z.of_nat (List.length ["quantum"]) <= Z.min 1000 (Z.max 1 2))%Z.
Proof.
  assert (H : main_flow sample_platform None 5 10
                ["quantum"; "7"; "!"; "forest"; "42"] 2
              = Written ["quantum"; "42-quantum"])
    by (vm_compute; reflexivity).
  assert (H1 : main_flow sample_platform (Some 1%nat) 5 10
                 ["quantum"; "7"; "!"; "forest"; "42"] 2
               = Written ["quantum"])
    by (vm_compute; reflexivity).
  split; [exact H|]. split; [exact H1|]. split.
  - apply (main_flow_writes_accepted_passwords sample_platform None 5 10
             _ 2 _ H).
  - apply (main_flow_writes_accepted_passwords sample_platform (Some 1%nat)
             5 10 _ 2 _ H1).
Defined.

(** X12. For an ingredient list with at most one non-empty category (a
    dictionary of words only, say) [main_flow] never writes a password,
    for every requested count and every sequence of random draws.  It
    stops with [sys.exit(1)] on the empty list; with the error of the
    constructor when training fails; with the empty list when the user
    interrupts before the first round; and otherwise with the
    [IndexError] of the first round. *)
Theorem main_flow_single_category_writes_nothing
        (P : Platform) (interrupt : option nat) (rounds fuel : nat)
        (ingredients : list string) (response : Z) :
  (numbers (_organize_ingredients ingredients) = [] /\
   specials (_organize_ingredients ingredients) = []) \/
  (words (_organize_ingredients ingredients) = [] /\
   specials (_organize_ingredients ingredients) = []) \/
  (words (_organize_ingredients ingredients) = [] /\
   numbers (_organize_ingredients ingredients) = []) ->
  (ingredients = [] /\
   main_flow P interrupt (S rounds) fuel ingredients response = SysExit 1) \/
  (exists e : exn,
     ingredients <> [] /\
     QuantumChef.__init__ P ingredients = Raise e /\
     main_flow P interrupt (S rounds) fuel ingredients response = Uncaught e) \/
  (exists chef : t P,
     ingredients <> [] /\
     QuantumChef.__init__ P ingredients = Ok chef /\
     interrupt = Some 0%nat /\
     main_flow P interrupt (S rounds) fuel ingredients response = Written []) \/
  (exists chef : t P,
     ingredients <> [] /\
     QuantumChef.__init__ P ingredients = Ok chef /\
     interrupt <> Some 0%nat /\
     main_flow P interrupt (S rounds) fuel ingredients response
       = Uncaught IndexError).
Proof.
  intros Hcat. unfold main_flow.
  destruct ingredients as [|x rest]; [left; split; reflexivity|].
  right. cbv zeta.
  destruct (QuantumChef.__init__ P (x :: rest)) as [chef|e] eqn:Hinit.
  - right. pose proof (clamp_count_range response) as Hrange.
    destruct (option_eq_dec_zero interrupt) as [-> | Hint].
    + left. exists chef. rewrite try_generate_interrupted.
      repeat split. discriminate.
    + right. exists chef.
      rewrite try_generate_round by (try exact Hint; simpl; lia).
      destruct (init_components P _ _ Hinit) as [Hc Hb].
      destruct (single_category_single_kind (x :: rest) Hcat) as [kd Hk].
      rewrite <- Hc in Hk.
      destruct (single_kind_pool_stays_empty P chef kd Hk)
        as (s' & Hrun & Hb').
      rewrite Hb in Hb'.
      rewrite (bake_password_empty_after_refill P fuel chef s' Hb Hrun Hb').
      repeat split; [discriminate | exact Hint].
  - left. exists e. repeat split. discriminate.
Qed.

Lemma main_flow_single_category_writes_nothing_witness :
  words (_organize_ingredients ["correct"; "horse"; "battery"; "staple"])
    = ["correct"; "horse"; "battery"; "staple"] /\
  main_flow sample_platform None 1 10
            ["correct"; "horse"; "battery"; "staple"] 5
    = Uncaught IndexError.
Proof.
  split; [reflexivity|].
  destruct (main_flow_single_category_writes_nothing sample_platform None 0 10
              ["correct"; "horse"; "battery"; "staple"] 5)
    as [[Hnil _] | [(e & _ & Hinit & _) | [(chef & _ & _ & Hint & _)
        | (chef & _ & _ & _ & Hrun)]]].
  - left. split; reflexivity.
  - discriminate Hnil.
  - discriminate Hinit.
  - discriminate Hint.
  - exact Hrun.
Defined.

(** Without an interrupt the guarded loop is the loop itself. *)
Lemma try_generate_uninterrupted (P : Platform) (fuel total : nat) :
  forall (rounds : nat) (passwords : list string) (self : t P),
    try_generate P None rounds fuel total passwords self
      = generate P rounds fuel total passwords self.
Proof.
  induction rounds as [|rounds IH]; intros passwords self;
    cbn [try_generate generate tick];
    destruct (List.length passwords <? total)%nat; try reflexivity.
  unfold bind at 1 3.
  destruct (bake_password P fuel self) as [[pwd|e|] s1]; try reflexivity.
  unfold bind.
  destruct (lift P (calculate_complexity pwd) s1) as [[score|e|] s2];
    try reflexivity.
  destruct (above_threshold score); apply IH.
Qed.
